(** * notesapp: the note orchestrator of [src/App.jsx]

    A shallow embedding of the four asynchronous operations of the [App]
    component ([withImageUrl], [fetchNotes], [createNote], [deleteNote]),
    of the React state they own, of the form's input handlers and of the
    state-dependent part of the rendered page, followed by the properties
    the specification states about them and by further properties read
    off the code.

    The operations are programs over a signature of effects: awaited
    calls into the persistence service and the object store, the clock,
    the browser console and the four state setters.  A program is run
    against an arbitrary environment that answers the awaited calls, and
    the run yields the final UI state together with the ordered trace of
    everything the operation did. *)

From Stdlib Require Import ZArith DecimalString DecimalPos DecimalZ.
From stdpp Require Import gmap strings list.

Open Scope string_scope.
Open Scope list_scope.

(** ** JavaScript strings

    A JavaScript string is a sequence of UTF-16 code units. *)

Abbreviation code_unit := N (only parsing).
Abbreviation jsstring := (list N) (only parsing).

(** An ASCII literal as a JavaScript string. *)
Definition str (s : string) : jsstring :=
  map Ascii.N_of_ascii (String.list_ascii_of_string s).

(** [WhiteSpace] and [LineTerminator] code points of ECMA-262, the ones
    [String.prototype.trim] strips. *)
Definition is_white_space (c : code_unit) : bool :=
  ((9 <=? c) && (c <=? 13)          (* TAB, LF, VT, FF, CR *)
   || (c =? 32)                     (* SPACE *)
   || (c =? 160)                    (* NO-BREAK SPACE *)
   || (c =? 5760)                   (* OGHAM SPACE MARK *)
   || (8192 <=? c) && (c <=? 8202)  (* EN QUAD .. HAIR SPACE *)
   || (c =? 8232) || (c =? 8233)    (* LINE / PARAGRAPH SEPARATOR *)
   || (c =? 8239)                   (* NARROW NO-BREAK SPACE *)
   || (c =? 8287)                   (* MEDIUM MATHEMATICAL SPACE *)
   || (c =? 12288)                  (* IDEOGRAPHIC SPACE *)
   || (c =? 65279))%N.              (* ZERO WIDTH NO-BREAK SPACE *)

Fixpoint trimStart (s : jsstring) : jsstring :=
  match s with
  | [] => []
  | c :: s' => if is_white_space c then trimStart s' else s
  end.

Definition trimEnd (s : jsstring) : jsstring := rev (trimStart (rev s)).

Definition trim (s : jsstring) : jsstring := trimEnd (trimStart s).

(** A string that is empty or made of white space only. *)
Definition blank (s : jsstring) : bool := forallb is_white_space s.

(** [`${n}`] for an integral number [n] (as [Date.now()] returns). *)
Definition number_to_string (n : Z) : jsstring :=
  str (NilZero.string_of_int (Z.to_int n)).

(** ** Values and note objects *)

(** The values a field of a note holds: the schema's fields are strings,
    nullable, and a missing property reads as [undefined]. *)
Inductive value : Type :=
| VUndefined
| VNull
| VStr (s : jsstring).

Global Instance value_eq_dec : EqDecision value.
Proof. solve_decision. Defined.

(** JavaScript's [ToBoolean]. *)
Definition truthy (v : value) : bool :=
  match v with
  | VUndefined | VNull => false
  | VStr [] => false
  | VStr (_ :: _) => true
  end.

(** [a !== b]. *)
Definition strict_neq (a b : value) : bool := negb (bool_decide (a = b)).

(** A note is a plain object: a finite map from property names to
    values.  Records returned by the persistence service carry [id],
    [name], [description], [image] and whatever else the backend adds. *)
Abbreviation note := (gmap string value) (only parsing).

(** [o.k]: property read, [undefined] when the property is missing. *)
Definition field (o : note) (k : string) : value := default VUndefined (o !! k).

(** ** React state of the component *)

Record form : Type := { name : jsstring; description : jsstring }.

Record File : Type := { file_name : jsstring; file_type : jsstring }.

Record ui : Type := {
  notes : list note;
  formState : form;
  file : option File;
  loading : bool
}.

(** [useState] initial values. *)
Definition initial : ui :=
  {| notes := []; formState := {| name := []; description := [] |};
     file := None; loading := false |}.

(** ** Effects *)

Record error : Type := { message : jsstring }.

(** Outcome of an awaited promise, or of a block that may throw. *)
Inductive result (A : Type) : Type :=
| Ok (a : A)
| Throw (e : error).
Arguments Ok {A} a.
Arguments Throw {A} e.

(** The calls into the external collaborators. *)
Inductive request : Type :=
| getUrl (key : value)                                   (* getUrl({ key }) *)
| Notes_list                                             (* client.models.Notes.list() *)
| Notes_create (name description : jsstring) (image : value)
| Notes_delete (id : value)
| uploadData (key : jsstring) (data : File) (contentType : jsstring)
| remove (key : value).

(** What awaiting each call yields: [url.href] for [getUrl], the [data]
    of the response for [list] ([None] when nullish) and [create]. *)
Definition response (r : request) : Type :=
  match r with
  | getUrl _ => result jsstring
  | Notes_list => result (option (list note))
  | Notes_create _ _ _ => result note
  | Notes_delete _ => result unit
  | uploadData _ _ _ => result unit
  | remove _ => result unit
  end.

Definition resolved (r : request) : response r -> bool :=
  match r return response r -> bool with
  | getUrl _ | Notes_list | Notes_create _ _ _ | Notes_delete _
  | uploadData _ _ _ | remove _ =>
      fun x => match x with Ok _ => true | Throw _ => false end
  end.

Inductive effect : Type -> Type :=
| Await (r : request) : effect (response r)
| Date_now : effect Z
| preventDefault : effect unit
| console_error (label : string) (err : error) : effect unit
| console_warn (label : string) (err : error) : effect unit
| setLoading (b : bool) : effect unit
| setNotes (update : list note -> list note) : effect unit
| setFormState (f : form) : effect unit
| setFile (f : option File) : effect unit.

(** Programs: finite trees of effects. *)
Inductive prog (A : Type) : Type :=
| Ret (a : A)
| Vis {X : Type} (e : effect X) (k : X -> prog A).
Arguments Ret {A} a.
Arguments Vis {A X} e k.

Fixpoint bind {A B : Type} (p : prog A) (f : A -> prog B) : prog B :=
  match p with
  | Ret a => f a
  | Vis e k => Vis e (fun x => bind (k x) f)
  end.

(** A JavaScript computation: a program that returns or throws. *)
Definition js (A : Type) : Type := prog (result A).

Definition ret {A : Type} (a : A) : js A := Ret (Ok a).

Definition seq {A B : Type} (p : js A) (f : A -> js B) : js B :=
  bind p (fun r => match r with Ok a => f a | Throw e => Ret (Throw e) end).

Definition perform {X : Type} (e : effect X) : js X := Vis e (fun x => Ret (Ok x)).

(** [await call(...)]: a rejected promise throws at the [await]. *)
Definition await (r : request) : prog (response r) := Vis (Await r) Ret.

(** [try { body } catch (err) { handler }] *)
Definition try_catch {A : Type} (body : js A) (handler : error -> js A) : js A :=
  bind body (fun r => match r with Ok a => Ret (Ok a) | Throw e => handler e end).

(** [try { body } finally { cleanup }] *)
Definition try_finally {A : Type} (body : js A) (cleanup : js unit) : js A :=
  bind body (fun r =>
    bind cleanup (fun c => match c with Ok _ => Ret r | Throw e => Ret (Throw e) end)).

Declare Scope js_scope.
Delimit Scope js_scope with js.
Notation "x <- p ;; q" := (seq p (fun x => q))
  (at level 100, p at next level, right associativity) : js_scope.
Notation "p ;; q" := (seq p (fun _ => q))
  (at level 100, right associativity) : js_scope.
Open Scope js_scope.

(** [Promise.all(ps)] for async functions started in list order: every
    one runs to its end, the results keep the list order, and the first
    rejection, if any, is the outcome.  In the browser the calls of
    different elements may interleave; each element's own effects keep
    their order, and a run lists them element by element. *)
Fixpoint Promise_all {A : Type} (ps : list (js A)) : js (list A) :=
  match ps with
  | [] => ret []
  | p :: ps' =>
      bind p (fun r =>
        bind (Promise_all ps') (fun rs =>
          match r, rs with
          | Ok a, Ok l => Ret (Ok (a :: l))
          | Throw e, _ => Ret (Throw e)
          | Ok _, Throw e => Ret (Throw e)
          end))
  end.

(** ** The operations of [App] *)

(** [withImageUrl(note)] (lines 28-37).  The collaborators hand out note
    objects, on which [note?.image] is the plain property read. *)
Definition withImageUrl (n : note) : js note :=
  if negb (truthy (field n "image")) then ret n
  else
    try_catch
      (href <- await (getUrl (field n "image")) ;;
       ret (<["imageUrl" := VStr href]> n))
      (fun err =>
         perform (console_error "getUrl error:" err) ;;
         ret n).

(** [fetchNotes()] (lines 40-52). *)
Definition fetchNotes : js unit :=
  try_finally
    (try_catch
       (perform (setLoading true) ;;
        data <- await Notes_list ;;
        withUrls <- Promise_all (map withImageUrl (default [] data)) ;;
        perform (setNotes (fun _ => withUrls)))
       (fun err => perform (console_error "fetchNotes error:" err)))
    (perform (setLoading false)).

(** The storage key of an upload: [`images/${Date.now()}-${file.name}`]. *)
Definition image_key (now : Z) (f : File) : jsstring :=
  str "images/" ++ number_to_string now ++ str "-" ++ file_name f.

(** [createNote(e)] (lines 60-99).  [formState] and [file] are the values
    the closure captured at the render that installed the handler. *)
Definition createNote (formState : form) (file : option File) : js unit :=
  perform preventDefault ;;
  if negb (truthy (VStr (trim (name formState)))) then ret tt
  else
    try_finally
      (try_catch
         (perform (setLoading true) ;;
          imageKey <-
            match file with
            | Some f =>
                now <- perform Date_now ;;
                let key := image_key now f in
                await (uploadData key f (file_type f)) ;;
                ret (VStr key)
            | None => ret VUndefined
            end ;;
          created <- await (Notes_create (name formState) (description formState) imageKey) ;;
          perform (setFormState {| name := []; description := [] |}) ;;
          perform (setFile None) ;;
          createdWithUrl <- withImageUrl created ;;
          perform (setNotes (fun prev => createdWithUrl :: prev)))
         (fun err => perform (console_error "createNote error:" err)))
      (perform (setLoading false)).

(** [deleteNote(note)] (lines 102-120). *)
Definition deleteNote (n : note) : js unit :=
  if negb (truthy (field n "id")) then ret tt
  else
    try_finally
      (try_catch
         (perform (setLoading true) ;;
          await (Notes_delete (field n "id")) ;;
          (if truthy (field n "image") then
             try_catch
               (await (remove (field n "image")))
               (fun rmErr => perform (console_warn "remove image warning:" rmErr))
           else ret tt) ;;
          perform (setNotes
                     (fun prev => List.filter (fun m => strict_neq (field m "id") (field n "id")) prev)))
         (fun err => perform (console_error "deleteNote error:" err)))
      (perform (setLoading false)).

(** ** Running an operation *)

(** What an operation is seen to do, in order. *)
Inductive obs : Type :=
| Called (r : request) (ok : bool)   (* an awaited collaborator call and whether it resolved *)
| Clock (t : Z)
| Prevented
| Logged (warning : bool) (label : string) (err : error)
| SetLoading (b : bool)
| SetNotes (l : list note)
| SetFormState (f : form)
| SetFile (f : option File).

(** The environment: it answers every collaborator call and reads the
    clock, and may keep any state of its own between calls. *)
Record environment (W : Type) : Type := {
  respond : ∀ r : request, W → response r * W;
  clock : W → Z * W
}.
Arguments respond {W} _ _ _.
Arguments clock {W} _ _.

Section Run.
Context {W : Type} (env : environment W).

(** One effect: its value, the UI state and the environment after it,
    and what was observed. *)
Definition step {X : Type} (e : effect X) (st : ui) (w : W) : X * ui * W * obs :=
  match e in effect X return X * ui * W * obs with
  | Await r =>
      let x := respond env r w in
      (x.1, st, x.2, Called r (resolved r x.1))
  | Date_now =>
      let t := clock env w in (t.1, st, t.2, Clock t.1)
  | preventDefault => (tt, st, w, Prevented)
  | console_error label err => (tt, st, w, Logged false label err)
  | console_warn label err => (tt, st, w, Logged true label err)
  | setLoading b =>
      (tt, {| notes := notes st; formState := formState st; file := file st; loading := b |},
       w, SetLoading b)
  | setNotes update =>
      (tt, {| notes := update (notes st); formState := formState st; file := file st;
              loading := loading st |},
       w, SetNotes (update (notes st)))
  | setFormState f =>
      (tt, {| notes := notes st; formState := f; file := file st; loading := loading st |},
       w, SetFormState f)
  | setFile f =>
      (tt, {| notes := notes st; formState := formState st; file := f; loading := loading st |},
       w, SetFile f)
  end.

Record outcome (A : Type) : Type := {
  value_of : A;
  ui_of : ui;
  world_of : W;
  trace_of : list obs
}.
Arguments value_of {A} _.
Arguments ui_of {A} _.
Arguments world_of {A} _.
Arguments trace_of {A} _.

Fixpoint run {A : Type} (p : prog A) (st : ui) (w : W) : outcome A :=
  match p with
  | Ret a => {| value_of := a; ui_of := st; world_of := w; trace_of := [] |}
  | Vis e k =>
      let s := step e st w in
      let o := run (k s.1.1.1) s.1.1.2 s.1.2 in
      {| value_of := value_of o; ui_of := ui_of o; world_of := world_of o;
         trace_of := s.2 :: trace_of o |}
  end.
End Run.

Arguments value_of {W A} _.
Arguments ui_of {W A} _.
Arguments world_of {W A} _.
Arguments trace_of {W A} _.

(** ** Sample environments *)

(** A backend driven by a script: each collaborator call consumes one
    entry, [true] to resolve and [false] to reject (an exhausted script
    resolves).  [list()] returns [listing]; [create] returns the record it
    stored, under the identifier ["n-1"]; the clock is stopped at [1700000000000]. *)
Definition canned (listing : list note) (r : request) : response r :=
  match r return response r with
  | getUrl (VStr k) => Ok (str "https://cdn.example/" ++ k)
  | getUrl _ => Ok (str "https://cdn.example/")
  | Notes_list => Ok (Some listing)
  | Notes_create nm ds img =>
      Ok (<["id" := VStr (str "n-1")]>
            (<["name" := VStr nm]>
               (<["description" := VStr ds]>
                  (match img with
                   | VStr k => {["image" := VStr k]}
                   | _ => {["image" := VNull]}
                   end))))
  | Notes_delete _ => Ok tt
  | uploadData _ _ _ => Ok tt
  | remove _ => Ok tt
  end.

Definition rejected (r : request) : response r :=
  match r return response r with
  | getUrl _ | Notes_list | Notes_create _ _ _ | Notes_delete _
  | uploadData _ _ _ | remove _ => Throw {| message := str "rejected" |}
  end.

Definition scripted (listing : list note) : environment (list bool) :=
  {| respond := fun r w =>
       match w with
       | false :: w' => (rejected r, w')
       | true :: w' => (canned listing r, w')
       | [] => (canned listing r, [])
       end;
     clock := fun w => (1700000000000%Z, w) |}.

(** A backend whose list request resolves without data and which rejects
    everything else. *)
Definition no_data : environment unit :=
  {| respond := λ (r : request) (w : unit),
       (match r return response r with
        | Notes_list => Ok None
        | r' => rejected r'
        end, w);
     clock := λ w : unit, (0%Z, w) |}.

(** The record [canned] answers a creation without image with. *)
Definition canned_record (nm ds : jsstring) : note :=
  <["id" := VStr (str "n-1")]>
    (<["name" := VStr nm]> (<["description" := VStr ds]> {["image" := VNull]})).

Definition trip : form := {| name := str "Trip"; description := str "Fun" |}.
Definition padded : form := {| name := str " Trip "; description := str "Fun" |}.
Definition photo : File := {| file_name := str "a.png"; file_type := str "image/png" |}.
Definition plain_note : note :=
  <["id" := VStr (str "n-7")]> (<["name" := VStr (str "Milk")]> ∅).
Definition pictured_note : note :=
  <["id" := VStr (str "n-8")]>
    (<["name" := VStr (str "Cat")]> (<["image" := VStr (str "images/1-cat.png")]> ∅)).

(** ** Vocabulary of the specification *)

(** A note has an image key when [note.image] passes the truthiness test
    of the source (lines 29 and 107): a non-empty string.  [undefined],
    [null], a missing property and the empty string are no key. *)
Definition has_image (n : note) : bool := truthy (field n "image").

(** A note has an identifier when [note.id] passes the test of line 103. *)
Definition has_id (n : note) : bool := truthy (field n "id").

Definition is_call (o : obs) : bool :=
  match o with Called _ _ => true | _ => false end.

Definition is_upload (o : obs) : bool :=
  match o with Called (uploadData _ _ _) _ => true | _ => false end.

(** Replays a trace against the busy flag, starting from [b]: every
    collaborator call must find the flag set. *)
Fixpoint busy_at_calls (b : bool) (tr : list obs) : bool :=
  match tr with
  | [] => true
  | Called _ _ :: tr' => b && busy_at_calls b tr'
  | SetLoading b' :: tr' => busy_at_calls b' tr'
  | _ :: tr' => busy_at_calls b tr'
  end.

(** The contract of the persistence service's [create] (its interface in
    the specification): the record it returns has a server-assigned
    identifier and the name, description and image key it was sent, the
    image being absent or [null] when none was sent; [imageUrl] is not a
    stored field. *)
Definition created_record (c : note) (id nm ds : jsstring) (img : value) : Prop :=
  field c "id" = VStr id ∧ field c "name" = VStr nm ∧ field c "description" = VStr ds
  ∧ (if truthy img then field c "image" = img else has_image c = false)
  ∧ c !! "imageUrl" = None.

(** ** The upload phase and the user's actions *)

Section Upload.
Context {W : Type} (env : environment W).

(** The upload phase of [createNote] (lines 67-78) seen from outside:
    the image key the record is to carry, whether the phase went
    through, and the environment it leaves. *)
Definition upload_phase (fl : option File) (w : W) : value * bool * W :=
  match fl with
  | None => (VUndefined, true, w)
  | Some x =>
      let t := clock env w in
      let key := image_key t.1 x in
      let r := respond env (uploadData key x (file_type x)) t.2 in
      (VStr key, resolved (uploadData key x (file_type x)) r.1, r.2)
  end.
End Upload.

(** What the rendered page lets the user trigger: the refresh button
    (line 171), the form's submit (line 140) and a note's delete button
    (line 205). *)
Inductive action : Type :=
| Refresh
| Submit
| Delete (n : note).

(** The handler the render of state [st] installs for each. *)
Definition handler (st : ui) (a : action) : js unit :=
  match a with
  | Refresh => fetchNotes
  | Submit => createNote (formState st) (file st)
  | Delete n => deleteNote n
  end.

(** The guard each operation starts with (lines 63 and 103). *)
Definition precondition (st : ui) (a : action) : bool :=
  match a with
  | Refresh => true
  | Submit => negb (blank (name (formState st)))
  | Delete n => has_id n
  end.

(** The collaborator call that refresh and delete stand on. *)
Definition primary_call (a : action) : option request :=
  match a with
  | Refresh => Some Notes_list
  | Submit => None
  | Delete n => Some (Notes_delete (field n "id"))
  end.

(** ** The rest of the component: inputs, mount and page *)

(** The [onChange] of the name input (line 146):
    [setFormState((s) => ({ ...s, name: e.target.value }))], the updater
    applied to the state. *)
Definition onChange_name (v : jsstring) (st : ui) : ui :=
  {| notes := notes st;
     formState := {| name := v; description := description (formState st) |};
     file := file st; loading := loading st |}.

(** The [onChange] of the description area (line 153). *)
Definition onChange_description (v : jsstring) (st : ui) : ui :=
  {| notes := notes st;
     formState := {| name := name (formState st); description := v |};
     file := file st; loading := loading st |}.

(** The [onChange] of the file picker (line 158):
    [setFile(e.target.files?.[0] ?? null)]; [files] is [None] when the
    input has no file list. *)
Definition onChange_file (files : option (list File)) (st : ui) : ui :=
  {| notes := notes st; formState := formState st;
     file := match files with Some (x :: _) => Some x | _ => None end;
     loading := loading st |}.

(** The calls of a trace, in order. *)
Fixpoint calls_of (tr : list obs) : list request :=
  match tr with
  | [] => []
  | Called r _ :: tr' => r :: calls_of tr'
  | _ :: tr' => calls_of tr'
  end.

(** The identifiers of a collection, in order. *)
Definition ids (l : list note) : list value := map (λ m : note, field m "id") l.

(** The notes of a listing that [withImageUrl] requests a URL for. *)
Definition pictured (l : list note) : list note := List.filter has_image l.

(** What hydration may turn a note into: the note itself, or, for a note
    with an image key, the note with [imageUrl] set. *)
Definition hydration_of (n n' : note) : Prop :=
  n' = n ∨ (has_image n = true ∧ ∃ href : jsstring, n' = <["imageUrl" := VStr href]> n).

(** The collaborators each operation goes to. *)
Definition may_call (a : action) (r : request) : bool :=
  match a, r with
  | Refresh, (Notes_list | getUrl _) => true
  | Submit, (uploadData _ _ _ | Notes_create _ _ _ | getUrl _) => true
  | Delete _, (Notes_delete _ | remove _) => true
  | _, _ => false
  end.

(** *** The page (lines 139-215)

    The parts of the rendered tree that depend on the state; the fixed
    markup and the class names are left out.  [x && <el/>] renders the
    element when [x] is truthy and nothing otherwise. *)

Definition when {A : Type} (v : value) (el : A) : option A :=
  if truthy v then Some el else None.

(** One [<li>] of the list (lines 187-211). *)
Record item : Type := {
  item_key : value;                      (* key={note.id} *)
  item_img : option (value * value);     (* <img src={note.imageUrl} alt={note.name}/> *)
  item_title : value;                    (* <h3>{note.name}</h3> *)
  item_description : option value;       (* <p>{note.description}</p> *)
  item_image_key : option value;         (* <p>image key: {note.image}</p> *)
  item_delete_disabled : bool            (* <button disabled={loading}>Delete</button> *)
}.

Definition render_item (busy : bool) (n : note) : item :=
  {| item_key := field n "id";
     item_img := when (field n "imageUrl") (field n "imageUrl", field n "name");
     item_title := field n "name";
     item_description := when (field n "description") (field n "description");
     item_image_key := when (field n "image") (field n "image");
     item_delete_disabled := busy |}.

(** The list section (lines 181-215). *)
Inductive list_section : Type :=
| No_notes_yet                           (* <p>No notes yet.</p> *)
| Items (l : list item).                 (* <ul>{notes.map(...)}</ul> *)

Record page : Type := {
  name_value : jsstring;                 (* value={formState.name} *)
  description_value : jsstring;          (* value={formState.description} *)
  submit_disabled : bool;
  submit_label : string;
  refresh_disabled : bool;
  section_of : list_section
}.

Definition render (st : ui) : page :=
  {| name_value := name (formState st);
     description_value := description (formState st);
     submit_disabled := loading st;
     submit_label := if loading st then "Working…" else "Create Note";
     refresh_disabled := loading st;
     section_of :=
       if (length (notes st) =? 0)%nat then No_notes_yet
       else Items (map (render_item (loading st)) (notes st)) |}.

(** ** Proof automation *)

(** Splits on every answer of the environment and every truthiness test
    met while a run is unfolded. *)
Ltac answer :=
  unfold withImageUrl;
  repeat (simpl in *;
    match goal with
    | |- context [respond ?env ?r ?w] =>
        let a := fresh "a" in let w' := fresh "w" in
        destruct (respond env r w) as [[a|a] w'] eqn:?
    | |- context [clock ?env ?w] =>
        let t := fresh "t" in let w' := fresh "w" in
        destruct (clock env w) as [t w'] eqn:?
    | |- context [truthy ?v] => destruct (truthy v) eqn:?
    end);
  simplify_eq/=.

(** ** Facts about strings *)

Lemma trimStart_nil (s : jsstring) : trimStart s = [] ↔ blank s = true.
Proof.
  induction s as [|c s IH]; simpl; [done|].
  destruct (is_white_space c) eqn:Hc; simpl; [exact IH|].
  split; discriminate.
Qed.

Lemma blank_rev (s : jsstring) : blank (rev s) = blank s.
Proof.
  unfold blank. induction s as [|c s IH]; simpl; [done|].
  rewrite forallb_app, IH. simpl. rewrite andb_true_r. apply andb_comm.
Qed.

Lemma trimEnd_nil (s : jsstring) : trimEnd s = [] ↔ blank s = true.
Proof.
  unfold trimEnd. rewrite <- (blank_rev s), <- trimStart_nil.
  split; intros H.
  - apply (f_equal (@rev N)) in H. rewrite rev_involutive in H. exact H.
  - rewrite H. reflexivity.
Qed.

Lemma blank_trimStart (s : jsstring) : blank (trimStart s) = blank s.
Proof.
  induction s as [|c s IH]; simpl; [done|].
  destruct (is_white_space c) eqn:Hc; simpl; [exact IH|].
  rewrite Hc. reflexivity.
Qed.

(** [!name.trim()] holds exactly for the names that are empty or white
    space only. *)
Lemma trim_falsy (s : jsstring) : truthy (VStr (trim s)) = negb (blank s).
Proof.
  destruct (blank s) eqn:Hb; simpl.
  - assert (trim s = []) as ->; [|done].
    unfold trim. apply trimEnd_nil. rewrite blank_trimStart. exact Hb.
  - destruct (trim s) eqn:Ht; [|done].
    unfold trim in Ht. apply trimEnd_nil in Ht.
    rewrite blank_trimStart in Ht. congruence.
Qed.

Example trim_strips_both_ends : trim (str "  Trip ") = str "Trip".
Proof. reflexivity. Qed.

Example trim_keeps_inner_space : trim (str " a b ") = str "a b".
Proof. reflexivity. Qed.

Example key_of_photo : image_key 1700000000000 photo = str "images/1700000000000-a.png".
Proof. reflexivity. Qed.

(** ** Facts about runs *)

Section RunFacts.
Context {W : Type} (env : environment W).

Lemma run_bind {A B : Type} (p : prog A) (f : A → prog B) (st : ui) (w : W) :
  run env (bind p f) st w =
  let o := run env p st w in
  let o' := run env (f (value_of o)) (ui_of o) (world_of o) in
  {| value_of := value_of o'; ui_of := ui_of o'; world_of := world_of o';
     trace_of := trace_of o ++ trace_of o' |}.
Proof.
  revert st w. induction p as [a|X e k IH]; intros st w; simpl.
  - destruct (run env (f a) st w); reflexivity.
  - rewrite IH. reflexivity.
Qed.

(** The three ways [withImageUrl] can go. *)
Lemma run_withImageUrl (n : note) (st : ui) (w : W) :
  run env (withImageUrl n) st w =
  if truthy (field n "image") then
    let x := respond env (getUrl (field n "image")) w in
    match x.1 with
    | Ok href =>
        {| value_of := Ok (<["imageUrl" := VStr href]> n); ui_of := st; world_of := x.2;
           trace_of := [Called (getUrl (field n "image")) true] |}
    | Throw e =>
        {| value_of := Ok n; ui_of := st; world_of := x.2;
           trace_of := [Called (getUrl (field n "image")) false;
                        Logged false "getUrl error:" e] |}
    end
  else {| value_of := Ok n; ui_of := st; world_of := w; trace_of := [] |}.
Proof.
  unfold withImageUrl. destruct (truthy (field n "image")); simpl; [|reflexivity].
  destruct (respond env (getUrl (field n "image")) w) as [[href|e] w']; reflexivity.
Qed.

(** Hydration never throws, leaves the UI state alone, and shows only
    object-store calls and log lines, which a set busy flag lets pass. *)
Lemma withImageUrl_frame (n : note) (st : ui) (w : W) :
  let o := run env (withImageUrl n) st w in
  (∃ n' : note, value_of o = Ok n')
  ∧ ui_of o = st
  ∧ (∀ rest, busy_at_calls true (trace_of o ++ rest) = busy_at_calls true rest).
Proof.
  simpl. rewrite run_withImageUrl.
  destruct (truthy (field n "image")); simpl.
  - destruct (respond env (getUrl (field n "image")) w) as [[href|e] w']; simpl.
    + split_and!; try done. by eexists.
    + split_and!; try done. by eexists.
  - split_and!; try done. by eexists.
Qed.
End RunFacts.

(** ** Worked runs *)

(** A delete whose record deletion resolves and whose image removal is
    rejected: the warning is logged and the note leaves the collection. *)
Example delete_with_failed_remove :
  trace_of (run (scripted []) (deleteNote pictured_note)
              {| notes := [plain_note; pictured_note]; formState := trip; file := None;
                 loading := false |} [true; false])
  = [SetLoading true;
     Called (Notes_delete (VStr (str "n-8"))) true;
     Called (remove (VStr (str "images/1-cat.png"))) false;
     Logged true "remove image warning:" {| message := str "rejected" |};
     SetNotes [plain_note];
     SetLoading false].
Proof. reflexivity. Qed.

(** A refresh replaces the collection by the hydrated listing. *)
Example refresh_replaces_collection :
  notes (ui_of (run (scripted [pictured_note; plain_note]) fetchNotes
                  {| notes := [plain_note]; formState := trip; file := None;
                     loading := false |} []))
  = [<["imageUrl" := VStr (str "https://cdn.example/images/1-cat.png")]> pictured_note;
     plain_note].
Proof. reflexivity. Qed.

(** An upload that is rejected: no record is created, nothing is added. *)
Example create_with_failed_upload :
  trace_of (run (scripted []) (createNote trip (Some photo)) initial [false])
  = [Prevented; SetLoading true; Clock 1700000000000;
     Called (uploadData (str "images/1700000000000-a.png") photo (str "image/png")) false;
     Logged false "createNote error:" {| message := str "rejected" |};
     SetLoading false].
Proof. reflexivity. Qed.

(** The empty string is no image key: such a note is returned as it is
    and no signed URL is requested for it. *)
Example empty_image_is_no_key :
  has_image (<["image" := VStr []]> plain_note) = false
  ∧ trace_of (run (scripted []) (withImageUrl (<["image" := VStr []]> plain_note)) initial [])
    = [].
Proof. split; reflexivity. Qed.

(** ** Hydration: [withImageUrl] *)

(** C7.  For a note [n] with image key [K] whose signed-URL request
    returns [U], hydration returns [n] with [imageUrl] set to [U]; every
    other property of the result (identifier, name, description, image
    key and any further one) is the one of [n].  The only call made is
    that request and the UI state is untouched. *)
Theorem hydrate_sets_imageUrl {W : Type} (env : environment W) (st : ui) (w : W)
    (n : note) (K U : jsstring) :
  field n "image" = VStr K →
  has_image n = true →
  (respond env (getUrl (VStr K)) w).1 = Ok U →
  let o := run env (withImageUrl n) st w in
  ∃ n' : note,
    value_of o = Ok n'
    ∧ n' = <["imageUrl" := VStr U]> n
    ∧ field n' "imageUrl" = VStr U
    ∧ (∀ k : string, k ≠ "imageUrl" → n' !! k = n !! k)
    ∧ trace_of o = [Called (getUrl (VStr K)) true]
    ∧ ui_of o = st.
Proof.
  intros HK Himg HU. simpl. rewrite run_withImageUrl.
  unfold has_image in Himg. rewrite Himg, HK. cbv zeta. rewrite HU.
  eexists; split_and!; try reflexivity.
  - unfold field. by rewrite lookup_insert_eq.
  - intros k Hk. by rewrite lookup_insert_ne.
Qed.

Lemma hydrate_sets_imageUrl_witness :
  ∃ n' : note,
    value_of (run (scripted []) (withImageUrl pictured_note) initial []) = Ok n'
    ∧ n' = <["imageUrl" := VStr (str "https://cdn.example/images/1-cat.png")]> pictured_note
    ∧ field n' "imageUrl" = VStr (str "https://cdn.example/images/1-cat.png")
    ∧ (∀ k : string, k ≠ "imageUrl" → n' !! k = pictured_note !! k)
    ∧ trace_of (run (scripted []) (withImageUrl pictured_note) initial [])
      = [Called (getUrl (VStr (str "images/1-cat.png"))) true]
    ∧ ui_of (run (scripted []) (withImageUrl pictured_note) initial []) = initial.
Proof.
  apply (hydrate_sets_imageUrl (scripted []) initial [] pictured_note
           (str "images/1-cat.png") (str "https://cdn.example/images/1-cat.png"));
    reflexivity.
Defined.

(** C8.  For a note without an image key, hydration returns the note
    itself and does nothing else: no object-store call (the trace is
    empty), no state change. *)
Theorem hydrate_without_image {W : Type} (env : environment W) (st : ui) (w : W) (n : note) :
  has_image n = false →
  run env (withImageUrl n) st w
  = {| value_of := Ok n; ui_of := st; world_of := w; trace_of := [] |}.
Proof.
  intros Himg. rewrite run_withImageUrl. unfold has_image in Himg. by rewrite Himg.
Qed.

Lemma hydrate_without_image_witness :
  has_image plain_note = false
  ∧ run (scripted []) (withImageUrl plain_note) initial [false]
    = {| value_of := Ok plain_note; ui_of := initial; world_of := [false]; trace_of := [] |}.
Proof.
  split; [reflexivity|].
  apply (hydrate_without_image (scripted []) initial [false] plain_note). reflexivity.
Defined.

(** C9.  For a note with an image key whose signed-URL request fails,
    hydration returns the note itself, so no [imageUrl] is added, and it
    returns normally: the failure is logged and goes no further. *)
Theorem hydrate_survives_failure {W : Type} (env : environment W) (st : ui) (w : W)
    (n : note) (e : error) :
  has_image n = true →
  (respond env (getUrl (field n "image")) w).1 = Throw e →
  let o := run env (withImageUrl n) st w in
  value_of o = Ok n
  ∧ (n !! "imageUrl" = None → ∀ n' : note, value_of o = Ok n' → n' !! "imageUrl" = None)
  ∧ trace_of o = [Called (getUrl (field n "image")) false; Logged false "getUrl error:" e]
  ∧ ui_of o = st.
Proof.
  intros Himg He. simpl. rewrite run_withImageUrl.
  unfold has_image in Himg. rewrite Himg. cbv zeta. rewrite He.
  split_and!; try reflexivity. intros Hnone n' [= <-]. exact Hnone.
Qed.

Lemma hydrate_survives_failure_witness :
  value_of (run (scripted []) (withImageUrl pictured_note) initial [false]) = Ok pictured_note
  ∧ pictured_note !! "imageUrl" = None.
Proof.
  split; [|reflexivity].
  apply (hydrate_survives_failure (scripted []) initial [false] pictured_note
           {| message := str "rejected" |}); reflexivity.
Defined.

(** ** Creation: [createNote] *)

(** C4.  When the form's name is empty or white space only, [createNote]
    makes no collaborator call and changes no state: after the event's
    [preventDefault] it returns, and the collection, the form buffer, the
    pending file and the busy flag are what they were. *)
Theorem create_blank_name_is_noop {W : Type} (env : environment W) (st : ui) (w : W)
    (f : form) (fl : option File) :
  blank (name f) = true →
  let o := run env (createNote f fl) st w in
  value_of o = Ok tt
  ∧ ui_of o = st
  ∧ world_of o = w
  ∧ trace_of o = [Prevented]
  ∧ List.filter is_call (trace_of o) = [].
Proof.
  intros Hb. unfold createNote. rewrite trim_falsy, Hb. simpl. done.
Qed.

Lemma create_blank_name_is_noop_witness :
  blank (str "  ") = true
  ∧ ui_of (run (scripted []) (createNote {| name := str "  "; description := str "Fun" |}
                                (Some photo)) initial []) = initial.
Proof.
  split; [reflexivity|].
  apply (create_blank_name_is_noop (scripted []) initial []
           {| name := str "  "; description := str "Fun" |} (Some photo)).
  reflexivity.
Defined.

(** C1.  When a file is selected and the name is not blank, exactly one
    upload call is issued, under the key built from the clock and the
    file name; a record-creation call, wherever it occurs in the trace,
    comes after that upload has resolved and carries that same key as its
    image; and it does occur once the upload has resolved. *)
Theorem create_uploads_once_before_record {W : Type} (env : environment W) (st : ui) (w : W)
    (f : form) (x : File) :
  blank (name f) = false →
  let tr := trace_of (run env (createNote f (Some x)) st w) in
  let key := image_key (clock env w).1 x in
  (∃ ok : bool, List.filter is_upload tr = [Called (uploadData key x (file_type x)) ok])
  ∧ (∀ (i : nat) (nm ds : jsstring) (img : value) (ok : bool),
       tr !! i = Some (Called (Notes_create nm ds img) ok) →
       img = VStr key
       ∧ ∃ j : nat, j < i ∧ tr !! j = Some (Called (uploadData key x (file_type x)) true))
  ∧ ((upload_phase env (Some x) w).1.2 = true →
       ∃ (i : nat) (ok : bool),
         tr !! i = Some (Called (Notes_create (name f) (description f) (VStr key)) ok)).
Proof.
  intros Hb. unfold createNote. rewrite trim_falsy, Hb.
  answer.
  all: split_and!; [by eexists | | first [ done | by exists 4, true | by exists 4, false ] ].
  all: intros i nm ds img ok Hi.
  all: do 12 (try destruct i as [|i]); simplify_eq/=.
  all: split; [done|]; exists 3; split; [lia|done].
Qed.

Lemma create_uploads_once_before_record_witness :
  blank (name trip) = false
  ∧ ∃ ok : bool,
      List.filter is_upload (trace_of (run (scripted []) (createNote trip (Some photo)) initial []))
      = [Called (uploadData (str "images/1700000000000-a.png") photo (str "image/png")) ok].
Proof.
  split; [reflexivity|].
  destruct (create_uploads_once_before_record (scripted []) initial [] trip photo) as [H _];
    [reflexivity | exact H].
Defined.

(** C10.  When the name is not blank, a record-creation call carries the
    form's name and description exactly as they stand in the buffer:
    the trimmed name is used for the test of line 63 only.  The call is
    made whenever the upload phase goes through. *)
Theorem create_sends_name_as_entered {W : Type} (env : environment W) (st : ui) (w : W)
    (f : form) (fl : option File) :
  blank (name f) = false →
  let tr := trace_of (run env (createNote f fl) st w) in
  (∀ (i : nat) (nm ds : jsstring) (img : value) (ok : bool),
     tr !! i = Some (Called (Notes_create nm ds img) ok) →
     nm = name f ∧ ds = description f)
  ∧ ((upload_phase env fl w).1.2 = true →
     ∃ (i : nat) (ok : bool),
       tr !! i = Some (Called (Notes_create (name f) (description f)
                                 (upload_phase env fl w).1.1) ok)).
Proof.
  intros Hb. unfold createNote. rewrite trim_falsy, Hb.
  destruct fl as [x|]; answer.
  all: split;
    [ intros i nm ds img ok Hi; do 12 (try destruct i as [|i]); by simplify_eq/=
    | first [ done | by exists 4, true | by exists 4, false
            | by exists 2, true | by exists 2, false ] ].
Qed.

Lemma create_sends_name_as_entered_witness :
  blank (name padded) = false
  ∧ trim (name padded) = str "Trip"
  ∧ ∃ (i : nat) (ok : bool),
      trace_of (run (scripted []) (createNote padded None) initial []) !! i
      = Some (Called (Notes_create (str " Trip ") (str "Fun") VUndefined) ok).
Proof.
  split; [reflexivity|]. split; [reflexivity|].
  destruct (create_sends_name_as_entered (scripted []) initial [] padded None) as [_ H];
    [reflexivity | apply H; reflexivity].
Defined.

(** C5.  When the name is not blank, the upload phase goes through and
    the persistence service answers the creation with a record [created]
    that honours its contract, [createNote] returns normally with the form
    buffer emptied and the pending file dropped, and the collection is the
    hydrated record followed by all the notes held before.  The hydrated
    record is what [withImageUrl] makes of [created]: for a record with an
    image key, a signed URL is requested for that key after the creation,
    and the first element is [created] with [imageUrl] set to the URL
    obtained, or [created] itself when the request fails; for a record
    without image key it is [created] itself and no URL is requested.
    The first element carries the server-assigned identifier and the
    submitted name and description.  When no file was selected it has no
    image key and no [imageUrl]; when a file was selected it carries the
    key of the upload, and the URL requested for that key once it is
    obtained. *)
Theorem create_success_prepends {W : Type} (env : environment W) (st : ui) (w : W)
    (f : form) (fl : option File) (created : note) (id : jsstring) :
  blank (name f) = false →
  (upload_phase env fl w).1.2 = true →
  (respond env (Notes_create (name f) (description f) (upload_phase env fl w).1.1)
     (upload_phase env fl w).2).1 = Ok created →
  created_record created id (name f) (description f) (upload_phase env fl w).1.1 →
  let o := run env (createNote f fl) st w in
  let w2 := (respond env (Notes_create (name f) (description f) (upload_phase env fl w).1.1)
               (upload_phase env fl w).2).2 in
  value_of o = Ok tt
  ∧ formState (ui_of o) = {| name := []; description := [] |}
  ∧ file (ui_of o) = None
  ∧ (∃ first : note,
      notes (ui_of o) = first :: notes st
      ∧ (∀ k : string, k ≠ "imageUrl" → first !! k = created !! k)
      ∧ field first "id" = VStr id
      ∧ field first "name" = VStr (name f)
      ∧ field first "description" = VStr (description f)
      ∧ (fl = None → first = created ∧ has_image first = false ∧ first !! "imageUrl" = None)
      ∧ first = (if has_image created then
                   match (respond env (getUrl (field created "image")) w2).1 with
                   | Ok href => <["imageUrl" := VStr href]> created
                   | Throw _ => created
                   end
                 else created)
      ∧ (∀ x : File, fl = Some x →
           has_image created = true
           ∧ field first "image" = VStr (image_key (clock env w).1 x)
           ∧ ∀ href : jsstring,
               (respond env (getUrl (VStr (image_key (clock env w).1 x))) w2).1 = Ok href →
               first = <["imageUrl" := VStr href]> created
               ∧ field first "imageUrl" = VStr href))
  ∧ calls_of (trace_of o)
    = match fl with
      | Some x => [uploadData (image_key (clock env w).1 x) x (file_type x)]
      | None => []
      end
      ++ Notes_create (name f) (description f) (upload_phase env fl w).1.1
      :: (if has_image created then [getUrl (field created "image")] else []).
Proof.
  intros Hb Hup Hcreated (Hid & Hnm & Hds & Himg & Hurl).
  unfold createNote. rewrite trim_falsy, Hb. unfold has_image in *.
  destruct fl as [x|]; answer.
  all: repeat match goal with
              | H1 : ?t = _, H2 : ?t = _ |- _ => rewrite H1 in H2; simplify_eq
              end.
  all: split_and!; try done.
  all: eexists; split_and!; try done.
  all: try (intros k Hk; by rewrite lookup_insert_ne).
  all: try (unfold field in *; by rewrite lookup_insert_ne).
  all: try congruence.
  all: intros y [= <-]; split_and!; try done.
  all: try (unfold field in *; by rewrite lookup_insert_ne).
  all: rewrite ?Himg in *; try (simpl in *; discriminate).
  all: intros href' Hhref; rewrite Heqp1 in Hhref; simpl in Hhref; simplify_eq.
  all: split; [done|]; unfold field; by rewrite lookup_insert_eq.
Qed.

Lemma create_success_prepends_witness :
  (let st := {| notes := [plain_note]; formState := trip; file := None; loading := false |} in
   let o := run (scripted []) (createNote trip None) st [] in
   formState (ui_of o) = {| name := []; description := [] |}
   ∧ ∃ first : note,
       notes (ui_of o) = [first; plain_note]
       ∧ field first "id" = VStr (str "n-1")
       ∧ field first "name" = VStr (str "Trip")
       ∧ field first "description" = VStr (str "Fun")
       ∧ has_image first = false ∧ first !! "imageUrl" = None)
  ∧ (let st := {| notes := [plain_note]; formState := trip; file := Some photo;
                  loading := false |} in
     let o := run (scripted []) (createNote trip (Some photo)) st [] in
     file (ui_of o) = None
     ∧ (∃ first : note,
          notes (ui_of o) = [first; plain_note]
          ∧ field first "image" = VStr (str "images/1700000000000-a.png")
          ∧ field first "imageUrl"
            = VStr (str "https://cdn.example/images/1700000000000-a.png"))
     ∧ calls_of (trace_of o)
       = [uploadData (str "images/1700000000000-a.png") photo (str "image/png");
          Notes_create (str "Trip") (str "Fun") (VStr (str "images/1700000000000-a.png"));
          getUrl (VStr (str "images/1700000000000-a.png"))]).
Proof.
  split.
  - intros st o.
    destruct (create_success_prepends (scripted []) st [] trip None
                (<["id" := VStr (str "n-1")]>
                   (<["name" := VStr (str "Trip")]>
                      (<["description" := VStr (str "Fun")]> {["image" := VNull]})))
                (str "n-1"))
      as (_ & Hform & _ & (first & Hnotes & _ & Hid & Hnm & Hds & Hnone & _) & _);
      [reflexivity | reflexivity | reflexivity | by split_and! | ].
    destruct (Hnone eq_refl) as (_ & Himg & Hurl).
    split; [exact Hform|]. exists first. by split_and!.
  - intros st o.
    destruct (create_success_prepends (scripted []) st [] trip (Some photo)
                (<["id" := VStr (str "n-1")]>
                   (<["name" := VStr (str "Trip")]>
                      (<["description" := VStr (str "Fun")]>
                         {["image" := VStr (str "images/1700000000000-a.png")]})))
                (str "n-1"))
      as (_ & _ & Hfile & (first & Hnotes & _ & _ & _ & _ & _ & _ & Hsome) & Hcalls);
      [reflexivity | reflexivity | reflexivity | by split_and! | ].
    destruct (Hsome photo eq_refl) as (_ & Hkey & Hhref).
    destruct (Hhref (str "https://cdn.example/images/1700000000000-a.png") eq_refl)
      as (_ & Hurl).
    split; [exact Hfile|]. split; [|exact Hcalls].
    exists first. split; [exact Hnotes|]. split; [exact Hkey | exact Hurl].
Defined.

(** ** Deletion: [deleteNote] *)

Lemma strict_neq_true (a b : value) : strict_neq a b = true ↔ a ≠ b.
Proof.
  unfold strict_neq. rewrite negb_true_iff, bool_decide_eq_false. reflexivity.
Qed.

(** C2.  For a note with an identifier and an image key [K], once the
    record deletion has resolved, a remove call for [K] is issued, and,
    whatever that call answers, the collection becomes the former one
    without the notes that carry the identifier: none of those is left and
    every other note is kept. *)
Theorem delete_removes_record_and_image {W : Type} (env : environment W) (st : ui) (w : W)
    (n : note) (K : jsstring) :
  has_id n = true →
  field n "image" = VStr K →
  has_image n = true →
  (respond env (Notes_delete (field n "id")) w).1 = Ok tt →
  let w1 := (respond env (Notes_delete (field n "id")) w).2 in
  let removed := resolved (remove (VStr K)) (respond env (remove (VStr K)) w1).1 in
  let o := run env (deleteNote n) st w in
  value_of o = Ok tt
  ∧ trace_of o !! 1 = Some (Called (Notes_delete (field n "id")) true)
  ∧ trace_of o !! 2 = Some (Called (remove (VStr K)) removed)
  ∧ notes (ui_of o)
    = List.filter (λ m : note, strict_neq (field m "id") (field n "id")) (notes st)
  ∧ (∀ m : note, In m (notes (ui_of o)) → field m "id" ≠ field n "id")
  ∧ (∀ m : note, In m (notes st) → field m "id" ≠ field n "id" → In m (notes (ui_of o))).
Proof.
  unfold has_id, has_image. intros Hid HK Himg Hdel. unfold deleteNote.
  rewrite Hid, Himg, HK. simpl.
  destruct (respond env (Notes_delete (field n "id")) w) as [[[]|e] w1]; simplify_eq/=.
  assert (∀ l : list note,
            (∀ m, In m (List.filter (λ m : note, strict_neq (field m "id") (field n "id")) l)
                  → field m "id" ≠ field n "id")
            ∧ (∀ m, In m l → field m "id" ≠ field n "id"
                  → In m (List.filter (λ m : note, strict_neq (field m "id") (field n "id")) l)))
    as Hfilter.
  { intros l; split.
    - intros m [_ Hm]%filter_In. by apply strict_neq_true.
    - intros m Hin Hne. apply filter_In. split; [done|]. by apply strict_neq_true. }
  destruct (respond env (remove (VStr K)) w1) as [[[]|e] w2]; simpl.
  all: split_and!; try done; apply Hfilter.
Qed.

Lemma delete_removes_record_and_image_witness :
  let st := {| notes := [plain_note; pictured_note]; formState := trip; file := None;
               loading := false |} in
  let o := run (scripted []) (deleteNote pictured_note) st [true; false] in
  value_of o = Ok tt
  ∧ trace_of o !! 2 = Some (Called (remove (VStr (str "images/1-cat.png"))) false)
  ∧ notes (ui_of o) = [plain_note].
Proof.
  intros st o.
  destruct (delete_removes_record_and_image (scripted []) st [true; false] pictured_note
              (str "images/1-cat.png"))
    as (Hv & _ & Hrm & Hnotes & _); [reflexivity.. | ].
  split; [exact Hv|]. split; [exact Hrm|]. exact Hnotes.
Defined.

(** ** The three user-triggered operations together *)

Section Operations.
Context {W : Type} (env : environment W).

(** Hydrating a whole listing: one result per note, no state change,
    nothing that touches the busy flag. *)
Lemma run_hydrate_all (l : list note) (st : ui) (w : W) :
  let o := run env (Promise_all (map withImageUrl l)) st w in
  (∃ l' : list note, value_of o = Ok l' ∧ length l' = length l)
  ∧ ui_of o = st
  ∧ (∀ rest, busy_at_calls true (trace_of o ++ rest) = busy_at_calls true rest).
Proof.
  revert w. induction l as [|n l IH]; intros w; simpl.
  - split_and!; try done. by exists [].
  - rewrite run_bind. cbv zeta.
    destruct (withImageUrl_frame env n st w) as ((n' & Hv) & Hst & Hbusy).
    simpl in Hv, Hst, Hbusy. rewrite Hv, Hst.
    rewrite run_bind. cbv zeta.
    destruct (IH (world_of (run env (withImageUrl n) st w))) as ((l' & Hl & Hlen) & Hst' & Hbusy').
    simpl in Hl, Hst', Hbusy'. rewrite Hl, Hst'. simpl.
    split_and!; try done.
    + exists (n' :: l'). simpl. by rewrite Hlen.
    + intros rest. rewrite app_nil_r, <- app_assoc.
      rewrite Hbusy. apply Hbusy'.
Qed.

(** The run of [fetchNotes], by the answer to the list request. *)
Lemma run_fetchNotes (st : ui) (w : W) :
  let x := respond env Notes_list w in
  let busy := {| notes := notes st; formState := formState st; file := file st;
                 loading := true |} in
  let o := run env fetchNotes st w in
  match x.1 with
  | Throw e =>
      o = {| value_of := Ok tt;
             ui_of := {| notes := notes st; formState := formState st; file := file st;
                         loading := false |};
             world_of := x.2;
             trace_of := [SetLoading true; Called Notes_list false;
                          Logged false "fetchNotes error:" e; SetLoading false] |}
  | Ok data =>
      let h := run env (Promise_all (map withImageUrl (default [] data))) busy x.2 in
      ∃ l' : list note,
        value_of h = Ok l'
        ∧ o = {| value_of := Ok tt;
                 ui_of := {| notes := l'; formState := formState st; file := file st;
                             loading := false |};
                 world_of := world_of h;
                 trace_of := SetLoading true :: Called Notes_list true
                             :: trace_of h ++ [SetNotes l'; SetLoading false] |}
  end.
Proof.
  unfold fetchNotes. simpl.
  destruct (respond env Notes_list w) as [[data|e] w1]; simpl; [|reflexivity].
  match goal with |- context [run env (Promise_all ?ps) ?s ?v] =>
    destruct (run_hydrate_all (default [] data) s v) as ((l' & Hl & _) & Hst & _)
  end.
  simpl in Hl, Hst. exists l'. split; [exact Hl|].
  unfold try_finally, try_catch, seq. rewrite !run_bind. cbv zeta.
  rewrite Hl, Hst. simpl. rewrite app_nil_r, <- app_assoc. reflexivity.
Qed.
End Operations.

(** C3.  When the primary call of a refresh or of a delete fails (the
    list request, the record deletion), the operation returns normally,
    the collection is the one held before, the setter of the collection
    is never called, and the form buffer and pending file are untouched. *)
Theorem primary_failure_keeps_collection {W : Type} (env : environment W) (st : ui) (w : W)
    (a : action) (r : request) :
  precondition st a = true →
  primary_call a = Some r →
  resolved r (respond env r w).1 = false →
  let o := run env (handler st a) st w in
  value_of o = Ok tt
  ∧ notes (ui_of o) = notes st
  ∧ formState (ui_of o) = formState st
  ∧ file (ui_of o) = file st
  ∧ (∀ l : list note, ¬ In (SetNotes l) (trace_of o))
  ∧ trace_of o !! 1 = Some (Called r false).
Proof.
  intros Hpre Hprim Hfail. destruct a as [| |n]; simplify_eq/=.
  - unfold fetchNotes. simpl.
    destruct (respond env Notes_list w) as [[data|e] w1]; simpl in Hfail |- *;
      [discriminate|].
    split_and!; try done.
    intros l [|[|[|[|[]]]]]; discriminate.
  - unfold has_id in Hpre. unfold deleteNote. rewrite Hpre. simpl.
    destruct (respond env (Notes_delete (field n "id")) w) as [[[]|e] w1]; simplify_eq/=.
    split_and!; try done.
    intros l [|[|[|[|[]]]]]; discriminate.
Qed.

Lemma primary_failure_keeps_collection_witness :
  let st := {| notes := [plain_note; pictured_note]; formState := trip; file := Some photo;
               loading := false |} in
  (value_of (run (scripted []) fetchNotes st [false]) = Ok tt
   ∧ notes (ui_of (run (scripted []) fetchNotes st [false])) = [plain_note; pictured_note])
  ∧ (value_of (run (scripted []) (deleteNote plain_note) st [false]) = Ok tt
     ∧ notes (ui_of (run (scripted []) (deleteNote plain_note) st [false]))
       = [plain_note; pictured_note]).
Proof.
  intros st. split.
  - destruct (primary_failure_keeps_collection (scripted []) st [false] Refresh Notes_list)
      as (Hv & Hn & _); [reflexivity.. | ].
    split; [exact Hv | exact Hn].
  - destruct (primary_failure_keeps_collection (scripted []) st [false] (Delete plain_note)
                (Notes_delete (VStr (str "n-7"))))
      as (Hv & Hn & _); [reflexivity.. | ].
    split; [exact Hv | exact Hn].
Defined.

(** C6.  For a refresh, a create and a delete that pass their guard,
    [setLoading(true)] comes before the first collaborator call, so that
    every call of the operation finds the busy flag set; at least one
    call is made; the operation ends by [setLoading(false)] and leaves the
    flag false, whether its calls resolved or failed. *)
Theorem busy_flag_brackets_calls {W : Type} (env : environment W) (st : ui) (w : W)
    (a : action) :
  precondition st a = true →
  let o := run env (handler st a) st w in
  busy_at_calls false (trace_of o) = true
  ∧ List.filter is_call (trace_of o) ≠ []
  ∧ last (trace_of o) = Some (SetLoading false)
  ∧ loading (ui_of o) = false.
Proof.
  intros Hpre. destruct a as [| |n]; cbn [handler precondition] in Hpre |- *.
  - pose proof (run_fetchNotes env st w) as Hrun. cbv zeta in Hrun.
    destruct (respond env Notes_list w) as [[data|e] w1]; cbn [fst snd] in Hrun.
    + destruct Hrun as (l' & Hl & ->). simpl.
      match goal with |- context [run env (Promise_all ?ps) ?s ?v] =>
        destruct (run_hydrate_all env (default [] data) s v) as (_ & _ & Hbusy)
      end.
      simpl in Hbusy. rewrite Hbusy. split_and!; try done.
      match goal with |- last (?x :: ?t ++ ?u) = _ =>
        change (x :: t ++ u) with ([x] ++ t ++ u)
      end.
      by rewrite !last_app.
    + rewrite Hrun. simpl. done.
  - apply negb_true_iff in Hpre. unfold createNote. rewrite trim_falsy, Hpre.
    destruct (file st) as [x|]; answer; done.
  - unfold has_id in Hpre. unfold deleteNote. rewrite Hpre.
    answer; done.
Qed.

Lemma busy_flag_brackets_calls_witness :
  let st := {| notes := [plain_note; pictured_note]; formState := trip; file := Some photo;
               loading := false |} in
  (busy_at_calls false (trace_of (run (scripted [pictured_note]) fetchNotes st [true; false])) = true
   ∧ loading (ui_of (run (scripted [pictured_note]) fetchNotes st [true; false])) = false)
  ∧ (busy_at_calls false (trace_of (run (scripted []) (createNote trip (Some photo)) st [false]))
     = true
     ∧ loading (ui_of (run (scripted []) (createNote trip (Some photo)) st [false])) = false)
  ∧ (busy_at_calls false (trace_of (run (scripted []) (deleteNote pictured_note) st [])) = true
     ∧ loading (ui_of (run (scripted []) (deleteNote pictured_note) st [])) = false).
Proof.
  intros st. split_and!.
  - by destruct (busy_flag_brackets_calls (scripted [pictured_note]) st [true; false] Refresh)
      as (H & _ & _ & _).
  - by destruct (busy_flag_brackets_calls (scripted [pictured_note]) st [true; false] Refresh)
      as (_ & _ & _ & H).
  - by destruct (busy_flag_brackets_calls (scripted []) st [false] Submit) as (H & _ & _ & _).
  - by destruct (busy_flag_brackets_calls (scripted []) st [false] Submit) as (_ & _ & _ & H).
  - by destruct (busy_flag_brackets_calls (scripted []) st [] (Delete pictured_note))
      as (H & _ & _ & _).
  - by destruct (busy_flag_brackets_calls (scripted []) st [] (Delete pictured_note))
      as (_ & _ & _ & H).
Defined.

(** ** Storage keys *)

Lemma str_cons (a : Ascii.ascii) (s : string) : str (String a s) = Ascii.N_of_ascii a :: str s.
Proof. reflexivity. Qed.

Lemma str_inj (s t : string) : str s = str t → s = t.
Proof.
  revert t. induction s as [|a s IH]; intros [|b t]; try discriminate; [done|].
  rewrite !str_cons. intros [= Hab Hst].
  f_equal; [|by apply IH].
  rewrite <- (Ascii.ascii_N_embedding a), <- (Ascii.ascii_N_embedding b). by rewrite Hab.
Qed.

(** The digits of a number hold no hyphen. *)
Lemma digits_no_hyphen (d : Decimal.uint) :
  Forall (λ c : N, c ≠ 45%N) (str (NilEmpty.string_of_uint d)).
Proof.
  induction d; simpl NilEmpty.string_of_uint; rewrite ?str_cons;
    [constructor | constructor; [by vm_compute | done] ..].
Qed.

Lemma number_no_hyphen (d : Decimal.uint) :
  Forall (λ c : N, c ≠ 45%N) (str (NilZero.string_of_uint d))
  ∧ str (NilZero.string_of_uint d) ≠ [].
Proof.
  destruct d; try (split; [apply digits_no_hyphen | by simpl; rewrite str_cons]).
  split; [|done]. repeat constructor. by vm_compute.
Qed.

(** A separator that occurs in neither prefix splits a string one way. *)
Lemma split_at_separator (x : N) (l1 l2 r1 r2 : list N) :
  Forall (λ c : N, c ≠ x) l1 → Forall (λ c : N, c ≠ x) l2 →
  l1 ++ x :: r1 = l2 ++ x :: r2 → l1 = l2 ∧ r1 = r2.
Proof.
  intros H1. revert l2. induction H1 as [|c l1 Hc H1 IH]; intros l2 H2 Heq.
  - destruct H2 as [|d l2 Hd H2]; simpl in Heq; [by simplify_eq|].
    simplify_eq.
  - destruct H2 as [|d l2 Hd H2]; simpl in Heq; [simplify_eq|].
    injection Heq as -> Heq. destruct (IH l2 H2 Heq) as [-> ->]. done.
Qed.

Lemma number_to_string_unsplit (t1 t2 : Z) (r1 r2 : list N) :
  number_to_string t1 ++ 45%N :: r1 = number_to_string t2 ++ 45%N :: r2 →
  t1 = t2 ∧ r1 = r2.
Proof.
  unfold number_to_string. intros Heq.
  assert (Z.to_int t1 ≠ Decimal.Pos Decimal.Nil ∧ Z.to_int t1 ≠ Decimal.Neg Decimal.Nil
          ∧ Z.to_int t2 ≠ Decimal.Pos Decimal.Nil ∧ Z.to_int t2 ≠ Decimal.Neg Decimal.Nil)
    as (Ha & Hb & Hc & Hd).
  { assert (∀ t : Z, Z.to_int t ≠ Decimal.Pos Decimal.Nil
                     ∧ Z.to_int t ≠ Decimal.Neg Decimal.Nil) as Hnil.
    { intros [|p|p]; simpl; split; try done; intros [= H];
        by apply DecimalPos.Unsigned.to_uint_nonnil in H. }
    destruct (Hnil t1), (Hnil t2). done. }
  assert (str (NilZero.string_of_int (Z.to_int t1)) = str (NilZero.string_of_int (Z.to_int t2))
          ∧ r1 = r2) as [Hs Hr].
  { destruct (Z.to_int t1) as [d1|d1], (Z.to_int t2) as [d2|d2];
      simpl NilZero.string_of_int in *; rewrite ?str_cons in *.
    - apply (split_at_separator 45); [apply number_no_hyphen.. | exact Heq].
    - exfalso. destruct (number_no_hyphen d1) as [Hf Hne].
      destruct (str (NilZero.string_of_uint d1)) as [|c l]; [done|].
      inversion Hf; simplify_eq/=.
    - exfalso. destruct (number_no_hyphen d2) as [Hf Hne].
      destruct (str (NilZero.string_of_uint d2)) as [|c l]; [done|].
      inversion Hf; simplify_eq/=.
    - simpl in Heq. injection Heq as Heq.
      destruct (split_at_separator 45 _ _ _ _ (proj1 (number_no_hyphen d1))
                  (proj1 (number_no_hyphen d2)) Heq) as [-> ->].
      done. }
  split; [|done]. apply DecimalZ.to_int_inj.
  apply str_inj in Hs.
  pose proof (NilZero.isi _ Ha Hb) as H1. pose proof (NilZero.isi _ Hc Hd) as H2.
  rewrite Hs in H1. congruence.
Qed.

(** X1.  Two uploads get the same storage key exactly when they read the
    same clock value and their files bear the same name: the key
    determines both, whatever the rest of the files is. *)
Theorem image_key_injective (t1 t2 : Z) (f1 f2 : File) :
  image_key t1 f1 = image_key t2 f2 ↔ t1 = t2 ∧ file_name f1 = file_name f2.
Proof.
  split.
  - unfold image_key. intros Heq. apply app_inv_head in Heq.
    change (str "-") with [45%N] in Heq. simpl in Heq.
    by apply number_to_string_unsplit in Heq.
  - intros [-> Hn]. unfold image_key. by rewrite Hn.
Qed.

Lemma image_key_injective_witness :
  image_key 1700000000000 photo
  = image_key 1700000000000 {| file_name := str "a.png"; file_type := str "image/jpeg" |}
  ∧ image_key 1700000000000 photo ≠ image_key 1700000000001 photo.
Proof.
  split.
  - apply (image_key_injective 1700000000000 1700000000000 photo
             {| file_name := str "a.png"; file_type := str "image/jpeg" |}).
    split; reflexivity.
  - intros H.
    apply (image_key_injective 1700000000000 1700000000001 photo photo) in H.
    destruct H as [H _]. discriminate H.
Defined.

(** ** More facts about runs *)

Lemma calls_of_app (tr1 tr2 : list obs) : calls_of (tr1 ++ tr2) = calls_of tr1 ++ calls_of tr2.
Proof.
  induction tr1 as [|o tr1 IH]; simpl; [done|]. destruct o; simpl; by rewrite ?IH.
Qed.

Lemma filter_all {A : Type} (f : A → bool) (l : list A) :
  (∀ x, In x l → f x = true) → List.filter f l = l.
Proof.
  induction l as [|a l IH]; simpl; [done|]. intros H.
  rewrite (H a) by auto. f_equal. apply IH. auto.
Qed.

Lemma filter_filter_same {A : Type} (f : A → bool) (l : list A) :
  List.filter f (List.filter f l) = List.filter f l.
Proof. apply filter_all. by intros x [_ ?]%filter_In. Qed.

Lemma filter_sublist {A : Type} (f : A → bool) (l : list A) : sublist (List.filter f l) l.
Proof.
  induction l as [|a l IH]; simpl; [constructor|].
  destruct (f a); by constructor.
Qed.

Section MoreRunFacts.
Context {W : Type} (env : environment W).

(** No effect reads the UI state: what a program returns, what it asks
    the collaborators and what it leaves of the environment do not depend
    on the state it runs from. *)
Lemma run_state_blind {A : Type} (p : prog A) (st1 st2 : ui) (w : W) :
  value_of (run env p st1 w) = value_of (run env p st2 w)
  ∧ world_of (run env p st1 w) = world_of (run env p st2 w)
  ∧ calls_of (trace_of (run env p st1 w)) = calls_of (trace_of (run env p st2 w)).
Proof.
  revert st1 st2 w. induction p as [a|X e k IH]; intros st1 st2 w; simpl; [done|].
  destruct e; simpl; (split_and!; [apply IH | apply IH | first [apply IH | f_equal; apply IH]]).
Qed.

(** One note through [withImageUrl], and the call it costs. *)
Lemma withImageUrl_spec (n : note) (st : ui) (w : W) :
  let o := run env (withImageUrl n) st w in
  ∃ n' : note,
    value_of o = Ok n' ∧ hydration_of n n'
    ∧ ui_of o = st
    ∧ calls_of (trace_of o) = (if has_image n then [getUrl (field n "image")] else []).
Proof.
  simpl. rewrite run_withImageUrl. unfold hydration_of, has_image.
  destruct (truthy (field n "image")) eqn:Himg; simpl.
  - destruct (respond env (getUrl (field n "image")) w) as [[href|e] w']; simpl.
    + eexists; split_and!; try done. right. split; [done|]. by eexists.
    + eexists; split_and!; try done. by left.
  - eexists; split_and!; try done. by left.
Qed.

(** A whole listing through [Promise.all(data.map(withImageUrl))]. *)
Lemma run_hydrate_all_spec (l : list note) (st : ui) (w : W) :
  let o := run env (Promise_all (map withImageUrl l)) st w in
  ∃ l' : list note,
    value_of o = Ok l' ∧ Forall2 hydration_of l l'
    ∧ ui_of o = st
    ∧ calls_of (trace_of o) = map (λ n : note, getUrl (field n "image")) (pictured l).
Proof.
  revert w. induction l as [|n l IH]; intros w; simpl.
  - exists []. split_and!; try done.
  - rewrite run_bind. cbv zeta.
    destruct (withImageUrl_spec n st w) as (n' & Hv & Hh & Hst & Hc).
    simpl in Hv, Hst, Hc. rewrite Hv, Hst.
    rewrite run_bind. cbv zeta.
    destruct (IH (world_of (run env (withImageUrl n) st w))) as (l' & Hl & Hf & Hst' & Hc').
    simpl in Hl, Hst', Hc'. rewrite Hl, Hst'. simpl.
    exists (n' :: l'). split_and!; try done.
    + by constructor.
    + rewrite app_nil_r, calls_of_app, Hc, Hc'. unfold pictured. simpl.
      by destruct (has_image n).
Qed.
End MoreRunFacts.

(** ** Refresh: [fetchNotes] on a resolved listing *)

(** X2.  When the list request resolves, a refresh returns normally and
    the collection becomes the listing, note for note and in the
    listing's order, each note either as it came or, if it has an image
    key, with [imageUrl] set.  The form buffer and the pending file are
    untouched, and the calls made are the list request followed by one
    signed-URL request for each note with an image key, in order. *)
Theorem refresh_installs_hydrated_listing {W : Type} (env : environment W) (st : ui) (w : W)
    (data : option (list note)) :
  (respond env Notes_list w).1 = Ok data →
  let o := run env fetchNotes st w in
  value_of o = Ok tt
  ∧ Forall2 hydration_of (default [] data) (notes (ui_of o))
  ∧ length (notes (ui_of o)) = length (default [] data)
  ∧ formState (ui_of o) = formState st
  ∧ file (ui_of o) = file st
  ∧ calls_of (trace_of o)
    = Notes_list :: map (λ n : note, getUrl (field n "image")) (pictured (default [] data)).
Proof.
  intros Hdata. pose proof (run_fetchNotes env st w) as Hrun. cbv zeta in Hrun |- *.
  rewrite Hdata in Hrun. destruct Hrun as (l' & Hl & ->).
  match type of Hl with value_of (run env _ ?s ?v) = _ =>
    destruct (run_hydrate_all_spec env (default [] data) s v) as (l'' & Hl' & Hf & _ & Hc)
  end.
  cbv zeta in Hl', Hc. rewrite Hl in Hl'. injection Hl' as <-.
  cbn [value_of ui_of trace_of notes formState file calls_of]. split_and!; try done.
  - symmetry. by eapply Forall2_length.
  - rewrite calls_of_app, Hc. cbn [calls_of]. by rewrite app_nil_r.
Qed.

Lemma refresh_installs_hydrated_listing_witness :
  let o := run (scripted [pictured_note; plain_note]) fetchNotes initial [true; false] in
  Forall2 hydration_of [pictured_note; plain_note] (notes (ui_of o))
  ∧ calls_of (trace_of o) = [Notes_list; getUrl (VStr (str "images/1-cat.png"))].
Proof.
  intros o.
  destruct (refresh_installs_hydrated_listing (scripted [pictured_note; plain_note]) initial
              [true; false] (Some [pictured_note; plain_note]))
    as (_ & Hf & _ & _ & _ & Hc); [reflexivity|].
  split; [exact Hf | exact Hc].
Defined.

(** X3.  A refresh whose list request resolves discards the collection
    it started from: the collection it leaves is the same from any two
    states. *)
Theorem refresh_forgets_previous_collection {W : Type} (env : environment W)
    (st1 st2 : ui) (w : W) :
  resolved Notes_list (respond env Notes_list w).1 = true →
  notes (ui_of (run env fetchNotes st1 w)) = notes (ui_of (run env fetchNotes st2 w)).
Proof.
  intros Hres.
  pose proof (run_fetchNotes env st1 w) as H1. pose proof (run_fetchNotes env st2 w) as H2.
  cbv zeta in H1, H2.
  destruct (respond env Notes_list w) as [[data|e] w1]; [|discriminate].
  cbn [fst snd] in H1, H2.
  destruct H1 as (l1 & Hl1 & ->). destruct H2 as (l2 & Hl2 & ->). simpl.
  match type of Hl1 with value_of (run env ?p ?s1 ?v) = _ =>
    match type of Hl2 with value_of (run env _ ?s2 _) = _ =>
      destruct (run_state_blind env p s1 s2 v) as (Hv & _)
    end
  end.
  congruence.
Qed.

Lemma refresh_forgets_previous_collection_witness :
  notes (ui_of (run (scripted [plain_note]) fetchNotes initial []))
  = notes (ui_of (run (scripted [plain_note]) fetchNotes
                    {| notes := [pictured_note; pictured_note]; formState := trip;
                       file := Some photo; loading := true |} [])).
Proof.
  apply (refresh_forgets_previous_collection (scripted [plain_note])). reflexivity.
Defined.

(** X4.  When the list request resolves without data ([null] or
    [undefined]), the refresh empties the collection, and the list
    request is the only call it makes. *)
Theorem refresh_without_data_empties {W : Type} (env : environment W) (st : ui) (w : W) :
  (respond env Notes_list w).1 = Ok None →
  let o := run env fetchNotes st w in
  notes (ui_of o) = [] ∧ calls_of (trace_of o) = [Notes_list] ∧ loading (ui_of o) = false.
Proof.
  intros Hdata. unfold fetchNotes. simpl.
  destruct (respond env Notes_list w) as [r w1]. simpl in Hdata. subst r. simpl. done.
Qed.

Lemma refresh_without_data_empties_witness :
  notes (ui_of (run no_data fetchNotes
                  {| notes := [plain_note]; formState := trip; file := None; loading := false |}
                  tt)) = [].
Proof.
  destruct (refresh_without_data_empties no_data
              {| notes := [plain_note]; formState := trip; file := None; loading := false |} tt)
    as (H & _); [reflexivity | exact H].
Defined.

(** ** All three operations *)

(** X5.  No operation lets an error out: whatever the state, the guard
    and the answers of the collaborators, the handler returns normally. *)
Theorem handlers_never_throw {W : Type} (env : environment W) (st st' : ui) (w : W)
    (a : action) :
  value_of (run env (handler st a) st' w) = Ok tt.
Proof.
  destruct a as [| |n]; cbn [handler].
  - pose proof (run_fetchNotes env st' w) as Hrun. cbv zeta in Hrun.
    destruct (respond env Notes_list w) as [[data|e] w1]; cbn [fst snd] in Hrun.
    + by destruct Hrun as (l' & _ & ->).
    + by rewrite Hrun.
  - unfold createNote. destruct (truthy (VStr (trim (name (formState st))))).
    + destruct (file st) as [x|]; answer; done.
    + done.
  - unfold deleteNote. answer; done.
Qed.

(** X6.  Each operation keeps to its own collaborators: a refresh only
    lists and requests signed URLs; a create only uploads, creates and
    requests a signed URL, and never removes an object or deletes a
    record; a delete only deletes the record and removes the object. *)
Theorem handlers_call_only_their_collaborators {W : Type} (env : environment W)
    (st st' : ui) (w : W) (a : action) :
  forallb (may_call a) (calls_of (trace_of (run env (handler st a) st' w))) = true.
Proof.
  destruct a as [| |n]; cbn [handler].
  - pose proof (run_fetchNotes env st' w) as Hrun. cbv zeta in Hrun.
    destruct (respond env Notes_list w) as [[data|e] w1]; cbn [fst snd] in Hrun.
    + destruct Hrun as (l' & _ & ->). cbn [trace_of calls_of forallb may_call andb].
      match goal with |- context [run env (Promise_all ?ps) ?s ?v] =>
        destruct (run_hydrate_all_spec env (default [] data) s v) as (_ & _ & _ & _ & Hc)
      end.
      cbv zeta in Hc. rewrite calls_of_app, Hc, forallb_app. cbn [calls_of forallb andb].
      rewrite andb_true_r. apply forallb_forall. by intros r (n & <- & _)%in_map_iff.
    + by rewrite Hrun.
  - unfold createNote. destruct (truthy (VStr (trim (name (formState st))))).
    + destruct (file st) as [x|]; answer; done.
    + done.
  - unfold deleteNote. answer; done.
Qed.

(** ** Creation: the failure paths and what follows a create *)

(** X7.  When the upload is rejected, the create stops there: the upload
    is the only call made (no record is created), and the collection,
    the form buffer and the pending file are what they were. *)
Theorem create_stops_at_rejected_upload {W : Type} (env : environment W) (st : ui) (w : W)
    (f : form) (x : File) :
  blank (name f) = false →
  (upload_phase env (Some x) w).1.2 = false →
  let o := run env (createNote f (Some x)) st w in
  calls_of (trace_of o) = [uploadData (image_key (clock env w).1 x) x (file_type x)]
  ∧ notes (ui_of o) = notes st
  ∧ formState (ui_of o) = formState st
  ∧ file (ui_of o) = file st
  ∧ loading (ui_of o) = false.
Proof.
  intros Hb Hup. unfold createNote. rewrite trim_falsy, Hb. answer; done.
Qed.

Lemma create_stops_at_rejected_upload_witness :
  let st := {| notes := [plain_note]; formState := trip; file := Some photo; loading := false |} in
  let o := run (scripted []) (createNote trip (Some photo)) st [false] in
  calls_of (trace_of o)
  = [uploadData (str "images/1700000000000-a.png") photo (str "image/png")]
  ∧ notes (ui_of o) = [plain_note] ∧ formState (ui_of o) = trip ∧ file (ui_of o) = Some photo.
Proof.
  intros st o.
  destruct (create_stops_at_rejected_upload (scripted []) st [false] trip photo)
    as (Hc & Hn & Hf & Hfile & _); [reflexivity | reflexivity | ].
  by split_and!.
Defined.

(** X8.  When the record creation is rejected, the collection, the form
    buffer and the pending file are what they were, so that the user's
    input is not lost; the calls made are the upload, if a file was
    selected, and the creation, and nothing takes the uploaded object
    back. *)
Theorem create_rejected_keeps_input {W : Type} (env : environment W) (st : ui) (w : W)
    (f : form) (fl : option File) :
  blank (name f) = false →
  (upload_phase env fl w).1.2 = true →
  resolved (Notes_create (name f) (description f) (upload_phase env fl w).1.1)
    (respond env (Notes_create (name f) (description f) (upload_phase env fl w).1.1)
       (upload_phase env fl w).2).1 = false →
  let o := run env (createNote f fl) st w in
  calls_of (trace_of o)
  = match fl with
    | Some x => [uploadData (image_key (clock env w).1 x) x (file_type x);
                 Notes_create (name f) (description f) (VStr (image_key (clock env w).1 x))]
    | None => [Notes_create (name f) (description f) VUndefined]
    end
  ∧ notes (ui_of o) = notes st
  ∧ formState (ui_of o) = formState st
  ∧ file (ui_of o) = file st
  ∧ loading (ui_of o) = false.
Proof.
  intros Hb Hup Hrej. unfold createNote. rewrite trim_falsy, Hb.
  destruct fl as [x|]; answer; done.
Qed.

Lemma create_rejected_keeps_input_witness :
  let st := {| notes := [plain_note]; formState := trip; file := Some photo; loading := false |} in
  let o := run (scripted []) (createNote trip (Some photo)) st [true; false] in
  calls_of (trace_of o)
  = [uploadData (str "images/1700000000000-a.png") photo (str "image/png");
     Notes_create (str "Trip") (str "Fun") (VStr (str "images/1700000000000-a.png"))]
  ∧ notes (ui_of o) = [plain_note] ∧ formState (ui_of o) = trip ∧ file (ui_of o) = Some photo.
Proof.
  intros st o.
  destruct (create_rejected_keeps_input (scripted []) st [true; false] trip (Some photo))
    as (Hc & Hn & Hf & Hfile & _); [reflexivity.. | ].
  by split_and!.
Defined.

(** X9.  After a create that went through, the page's next submit does
    nothing: the form was reset, so the handler stops at its guard, with
    no call and no state change, until a name is typed again. *)
Theorem submit_after_create_is_noop {W : Type} (env : environment W) (st : ui) (w w' : W) :
  precondition st Submit = true →
  (upload_phase env (file st) w).1.2 = true →
  resolved (Notes_create (name (formState st)) (description (formState st))
              (upload_phase env (file st) w).1.1)
    (respond env (Notes_create (name (formState st)) (description (formState st))
                    (upload_phase env (file st) w).1.1)
       (upload_phase env (file st) w).2).1 = true →
  let o := run env (handler st Submit) st w in
  run env (handler (ui_of o) Submit) (ui_of o) w'
  = {| value_of := Ok tt; ui_of := ui_of o; world_of := w'; trace_of := [Prevented] |}.
Proof.
  cbn [precondition handler]. intros Hb%negb_true_iff Hup Hres.
  unfold createNote at 2. rewrite trim_falsy, Hb.
  destruct (file st) as [x|]; answer; done.
Qed.

Lemma submit_after_create_is_noop_witness :
  let st := {| notes := []; formState := trip; file := Some photo; loading := false |} in
  let o := run (scripted []) (handler st Submit) st [] in
  trace_of (run (scripted []) (handler (ui_of o) Submit) (ui_of o) [false]) = [Prevented].
Proof.
  intros st o.
  assert (run (scripted []) (handler (ui_of o) Submit) (ui_of o) [false]
          = {| value_of := Ok tt; ui_of := ui_of o; world_of := [false];
               trace_of := [Prevented] |}) as H.
  { apply (submit_after_create_is_noop (scripted []) st [] [false]); reflexivity. }
  exact (f_equal trace_of H).
Defined.

(** X10.  After a create that failed, at the upload or at the record
    creation, the page's next submit is the same operation again: the
    handler is installed over the same form buffer and the same file. *)
Theorem submit_after_failure_retries {W : Type} (env : environment W) (st : ui) (w : W) :
  precondition st Submit = true →
  (upload_phase env (file st) w).1.2 = false
  ∨ resolved (Notes_create (name (formState st)) (description (formState st))
                (upload_phase env (file st) w).1.1)
      (respond env (Notes_create (name (formState st)) (description (formState st))
                      (upload_phase env (file st) w).1.1)
         (upload_phase env (file st) w).2).1 = false →
  let o := run env (handler st Submit) st w in
  handler (ui_of o) Submit = handler st Submit
  ∧ precondition (ui_of o) Submit = true.
Proof.
  cbn [precondition handler]. intros Hb Hfail.
  assert (formState (ui_of (run env (createNote (formState st) (file st)) st w)) = formState st
          ∧ file (ui_of (run env (createNote (formState st) (file st)) st w)) = file st)
    as [Hf Hfile].
  { apply negb_true_iff in Hb. unfold createNote. rewrite trim_falsy, Hb.
    destruct (file st) as [x|] eqn:Hfl; destruct Hfail as [Hfail|Hfail]; answer; done. }
  cbv zeta. by rewrite Hf, Hfile.
Qed.

Lemma submit_after_failure_retries_witness :
  let st := {| notes := []; formState := trip; file := Some photo; loading := false |} in
  let o := run (scripted []) (handler st Submit) st [false] in
  handler (ui_of o) Submit = handler st Submit ∧ precondition (ui_of o) Submit = true.
Proof.
  intros st o.
  apply (submit_after_failure_retries (scripted []) st [false]); [reflexivity|].
  left. reflexivity.
Defined.

(** ** Deletion: guard, calls and the collection *)

Section DeleteFacts.
Context {W : Type} (env : environment W).

(** A delete whose record deletion resolved, image key or not. *)
Lemma run_deleteNote_resolved (n : note) (st : ui) (w : W) :
  has_id n = true →
  (respond env (Notes_delete (field n "id")) w).1 = Ok tt →
  let o := run env (deleteNote n) st w in
  notes (ui_of o)
  = List.filter (λ m : note, strict_neq (field m "id") (field n "id")) (notes st)
  ∧ formState (ui_of o) = formState st
  ∧ file (ui_of o) = file st.
Proof.
  unfold has_id. intros Hid Hdel. unfold deleteNote. rewrite Hid. answer; done.
Qed.
End DeleteFacts.

Lemma map_sublist {A B : Type} (f : A → B) (l k : list A) :
  sublist l k → sublist (map f l) (map f k).
Proof. induction 1; simpl; by constructor. Qed.

Lemma filter_other_ids (v : value) (l : list note) :
  (∀ m : note, In m l → field m "id" ≠ v) →
  List.filter (λ m : note, strict_neq (field m "id") v) l = l.
Proof. intros H. apply filter_all. intros m Hm. apply strict_neq_true. by apply H. Qed.

Lemma filter_unique_id (n : note) (l : list note) :
  NoDup (ids l) → In n l →
  length (List.filter (λ m : note, strict_neq (field m "id") (field n "id")) l) + 1 = length l.
Proof.
  induction l as [|a l IH]; simpl; [done|].
  intros [Ha Hl]%NoDup_cons [->|Hin].
  - unfold strict_neq at 1. rewrite bool_decide_eq_true_2 by done. simpl.
    rewrite filter_other_ids; [lia|].
    intros m Hm Heq. apply Ha. rewrite <- Heq. apply list_elem_of_In.
    by apply (in_map (λ m : note, field m "id")).
  - assert (strict_neq (field a "id") (field n "id") = true) as ->.
    { apply strict_neq_true. intros Heq. apply Ha. rewrite Heq. apply list_elem_of_In.
      by apply (in_map (λ m : note, field m "id")). }
    simpl. by rewrite IH.
Qed.

(** X11.  A note without an identifier cannot be deleted: the handler
    stops at its guard, with no call, no state change and no busy flag. *)
Theorem delete_without_id_is_noop {W : Type} (env : environment W) (st : ui) (w : W)
    (n : note) :
  has_id n = false →
  run env (deleteNote n) st w
  = {| value_of := Ok tt; ui_of := st; world_of := w; trace_of := [] |}.
Proof. unfold has_id. intros Hid. unfold deleteNote. by rewrite Hid. Qed.

Lemma delete_without_id_is_noop_witness :
  run (scripted []) (deleteNote (<["name" := VStr (str "Draft")]> ∅)) initial [false]
  = {| value_of := Ok tt; ui_of := initial; world_of := [false]; trace_of := [] |}.
Proof.
  apply (delete_without_id_is_noop (scripted []) initial [false]). reflexivity.
Defined.

(** X12.  The calls of a delete past its guard: the record deletion
    first, then the removal of the object, which is requested only once
    the record deletion has resolved and only for a note with an image
    key.  A failed record deletion leaves the stored object alone. *)
Theorem delete_call_sequence {W : Type} (env : environment W) (st : ui) (w : W) (n : note) :
  has_id n = true →
  let deleted :=
    resolved (Notes_delete (field n "id")) (respond env (Notes_delete (field n "id")) w).1 in
  calls_of (trace_of (run env (deleteNote n) st w))
  = Notes_delete (field n "id")
    :: (if deleted && has_image n then [remove (field n "image")] else []).
Proof.
  unfold has_id, has_image. intros Hid. unfold deleteNote. rewrite Hid. answer; done.
Qed.

Lemma delete_call_sequence_witness :
  calls_of (trace_of (run (scripted []) (deleteNote pictured_note) initial [false]))
  = [Notes_delete (VStr (str "n-8"))]
  ∧ calls_of (trace_of (run (scripted []) (deleteNote pictured_note) initial [true]))
    = [Notes_delete (VStr (str "n-8")); remove (VStr (str "images/1-cat.png"))].
Proof.
  split.
  - apply (delete_call_sequence (scripted []) initial [false] pictured_note). reflexivity.
  - apply (delete_call_sequence (scripted []) initial [true] pictured_note). reflexivity.
Defined.

(** X13.  When the identifiers of the collection are distinct and the
    deleted note is one of its notes, a delete whose record deletion
    resolved takes exactly one note out: the collection is one shorter,
    keeps the order of the notes that stay, holds the identifier no more
    and still has distinct identifiers. *)
Theorem delete_takes_one_note_out {W : Type} (env : environment W) (st : ui) (w : W)
    (n : note) :
  has_id n = true →
  NoDup (ids (notes st)) →
  In n (notes st) →
  (respond env (Notes_delete (field n "id")) w).1 = Ok tt →
  let o := run env (deleteNote n) st w in
  length (notes (ui_of o)) + 1 = length (notes st)
  ∧ sublist (notes (ui_of o)) (notes st)
  ∧ ¬ In (field n "id") (ids (notes (ui_of o)))
  ∧ NoDup (ids (notes (ui_of o))).
Proof.
  intros Hid Hnd Hin Hdel.
  destruct (run_deleteNote_resolved env n st w Hid Hdel) as (Hn & _).
  cbv zeta in Hn |- *. rewrite Hn. split_and!.
  - by apply filter_unique_id.
  - apply filter_sublist.
  - intros Hin'. apply in_map_iff in Hin' as (m & Hm & Hin').
    apply filter_In in Hin' as [_ Hne]. apply strict_neq_true in Hne. by apply Hne.
  - eapply sublist_NoDup; [exact Hnd|]. apply map_sublist, filter_sublist.
Qed.

Lemma delete_takes_one_note_out_witness :
  let st := {| notes := [plain_note; pictured_note]; formState := trip; file := None;
               loading := false |} in
  length (notes (ui_of (run (scripted []) (deleteNote plain_note) st []))) + 1 = 2.
Proof.
  intros st.
  destruct (delete_takes_one_note_out (scripted []) st [] plain_note) as (H & _).
  - reflexivity.
  - unfold ids. simpl. apply NoDup_cons. split; [|apply NoDup_singleton].
    intros Hin%list_elem_of_In. destruct Hin as [Heq|[]]. discriminate Heq.
  - left. reflexivity.
  - reflexivity.
  - exact H.
Defined.

(** X14.  Deleting the same note a second time changes the collection
    no further: once its record deletion has resolved twice, the second
    run leaves the collection the first one left. *)
Theorem delete_twice_is_delete_once {W : Type} (env : environment W) (st : ui) (w : W)
    (n : note) :
  has_id n = true →
  (respond env (Notes_delete (field n "id")) w).1 = Ok tt →
  let o1 := run env (deleteNote n) st w in
  (respond env (Notes_delete (field n "id")) (world_of o1)).1 = Ok tt →
  let o2 := run env (deleteNote n) (ui_of o1) (world_of o1) in
  notes (ui_of o2) = notes (ui_of o1).
Proof.
  intros Hid Hdel o1 Hdel2 o2.
  destruct (run_deleteNote_resolved env n st w Hid Hdel) as (Hn1 & _).
  destruct (run_deleteNote_resolved env n (ui_of o1) (world_of o1) Hid Hdel2) as (Hn2 & _).
  cbv zeta in Hn1, Hn2. subst o1 o2. rewrite Hn2, Hn1. apply filter_filter_same.
Qed.

Lemma delete_twice_is_delete_once_witness :
  let st := {| notes := [plain_note; pictured_note]; formState := trip; file := None;
               loading := false |} in
  let o1 := run (scripted []) (deleteNote pictured_note) st [] in
  notes (ui_of (run (scripted []) (deleteNote pictured_note) (ui_of o1) (world_of o1)))
  = notes (ui_of o1).
Proof.
  intros st o1.
  apply (delete_twice_is_delete_once (scripted []) st [] pictured_note); reflexivity.
Defined.

(** ** Create, then delete *)

Lemma hydration_keeps (n n' : note) (k : string) :
  hydration_of n n' → k ≠ "imageUrl" → field n' k = field n k.
Proof.
  intros [->|(_ & href & ->)] Hk; [done|]. unfold field. by rewrite lookup_insert_ne.
Qed.

Section CreateFacts.
Context {W : Type} (env : environment W).

(** A create that went through, seen through what hydration allows. *)
Lemma run_createNote_resolved (f : form) (fl : option File) (created : note) (st : ui) (w : W) :
  blank (name f) = false →
  (upload_phase env fl w).1.2 = true →
  (respond env (Notes_create (name f) (description f) (upload_phase env fl w).1.1)
     (upload_phase env fl w).2).1 = Ok created →
  let o := run env (createNote f fl) st w in
  ∃ first : note, notes (ui_of o) = first :: notes st ∧ hydration_of created first.
Proof.
  intros Hb Hup Hcreated. unfold createNote. rewrite trim_falsy, Hb.
  unfold hydration_of, has_image.
  destruct fl as [x|]; answer; eexists; (split; [done|]); eauto.
Qed.
End CreateFacts.

(** X15.  A created note can be deleted again: when a create went
    through with a record under a fresh identifier, deleting the
    collection's first note, once its record deletion has resolved,
    leaves the collection exactly as it was before the create. *)
Theorem create_then_delete_restores {W : Type} (env : environment W) (st : ui) (w : W)
    (f : form) (fl : option File) (created : note) (id : jsstring) :
  blank (name f) = false →
  (upload_phase env fl w).1.2 = true →
  (respond env (Notes_create (name f) (description f) (upload_phase env fl w).1.1)
     (upload_phase env fl w).2).1 = Ok created →
  field created "id" = VStr id →
  id ≠ [] →
  (∀ m : note, In m (notes st) → field m "id" ≠ VStr id) →
  let o1 := run env (createNote f fl) st w in
  (respond env (Notes_delete (VStr id)) (world_of o1)).1 = Ok tt →
  ∃ first : note,
    head (notes (ui_of o1)) = Some first
    ∧ notes (ui_of (run env (deleteNote first) (ui_of o1) (world_of o1))) = notes st.
Proof.
  intros Hb Hup Hcreated Hid Hne Hfresh o1 Hdel.
  destruct (run_createNote_resolved env f fl created st w Hb Hup Hcreated)
    as (first & Hnotes & Hh).
  fold o1 in Hnotes. exists first. rewrite Hnotes. split; [done|].
  assert (field first "id" = VStr id) as Hfid.
  { rewrite <- Hid. by apply hydration_keeps. }
  assert (has_id first = true) as Hhas.
  { unfold has_id. rewrite Hfid. by destruct id. }
  rewrite <- Hfid in Hdel.
  destruct (run_deleteNote_resolved env first (ui_of o1) (world_of o1) Hhas Hdel) as (-> & _).
  rewrite Hnotes. simpl.
  unfold strict_neq at 1. rewrite bool_decide_eq_true_2 by done. simpl.
  apply filter_other_ids. intros m Hm. rewrite Hfid. by apply Hfresh.
Qed.

Lemma create_then_delete_restores_witness :
  let st := {| notes := [plain_note; pictured_note]; formState := trip; file := Some photo;
               loading := false |} in
  let o1 := run (scripted []) (createNote trip (Some photo)) st [] in
  ∃ first : note,
    head (notes (ui_of o1)) = Some first
    ∧ notes (ui_of (run (scripted []) (deleteNote first) (ui_of o1) (world_of o1)))
      = [plain_note; pictured_note].
Proof.
  intros st o1.
  apply (create_then_delete_restores (scripted []) st [] trip (Some photo)
           (<["id" := VStr (str "n-1")]>
              (<["name" := VStr (str "Trip")]>
                 (<["description" := VStr (str "Fun")]>
                    {["image" := VStr (str "images/1700000000000-a.png")]})))
           (str "n-1")); try reflexivity.
  - discriminate.
  - intros m [<-|[<-|[]]]; discriminate.
Defined.

(** ** The inputs of the form *)

(** X16.  What the user typed is what is sent: after the name and the
    description were typed into the form, in either order, a submit with
    a non-blank name and no file makes its first call the record
    creation with exactly these two strings and no image. *)
Theorem typed_values_are_sent {W : Type} (env : environment W) (st : ui) (w : W)
    (v d : jsstring) :
  blank v = false →
  file st = None →
  let st1 := onChange_description d (onChange_name v st) in
  let st2 := onChange_name v (onChange_description d st) in
  st1 = st2
  ∧ head (calls_of (trace_of (run env (handler st1 Submit) st1 w)))
    = Some (Notes_create v d VUndefined).
Proof.
  intros Hb Hfile. split; [done|].
  cbn [handler onChange_description onChange_name formState file name description].
  unfold createNote. cbn [name description]. rewrite trim_falsy, Hb, Hfile. answer; done.
Qed.

Lemma typed_values_are_sent_witness :
  head (calls_of (trace_of
         (run (scripted [])
            (handler (onChange_description (str "Fun") (onChange_name (str " Trip ") initial))
               Submit)
            (onChange_description (str "Fun") (onChange_name (str " Trip ") initial)) [])))
  = Some (Notes_create (str " Trip ") (str "Fun") VUndefined).
Proof.
  apply (typed_values_are_sent (scripted []) initial [] (str " Trip ") (str "Fun"));
    reflexivity.
Defined.

(** X17.  Of the files picked, only the first is pending: a submit after
    a selection uploads that file and no other, and a submit after an
    empty or missing selection uploads nothing and creates the record
    without an image. *)
Theorem only_first_picked_file_is_uploaded {W : Type} (env : environment W) (st : ui) (w : W)
    (files : option (list File)) :
  precondition st Submit = true →
  let st' := onChange_file files st in
  let tr := trace_of (run env (handler st' Submit) st' w) in
  match files with
  | Some (x :: _) =>
      ∃ ok : bool,
        List.filter is_upload tr
        = [Called (uploadData (image_key (clock env w).1 x) x (file_type x)) ok]
  | _ =>
      List.filter is_upload tr = []
      ∧ head (calls_of tr)
        = Some (Notes_create (name (formState st)) (description (formState st)) VUndefined)
  end.
Proof.
  cbn [precondition]. intros Hb%negb_true_iff.
  cbn [handler onChange_file formState file].
  unfold createNote. rewrite trim_falsy, Hb.
  destruct files as [[|x rest]|]; answer; try done; by eexists.
Qed.

Lemma only_first_picked_file_is_uploaded_witness :
  let st' := onChange_file (Some [photo; {| file_name := str "b.png"; file_type := str "image/png" |}])
               {| notes := []; formState := trip; file := None; loading := false |} in
  ∃ ok : bool,
    List.filter is_upload (trace_of (run (scripted []) (handler st' Submit) st' []))
    = [Called (uploadData (str "images/1700000000000-a.png") photo (str "image/png")) ok].
Proof.
  intros st'.
  apply (only_first_picked_file_is_uploaded (scripted [])
           {| notes := []; formState := trip; file := None; loading := false |} []
           (Some [photo; {| file_name := str "b.png"; file_type := str "image/png" |}])).
  reflexivity.
Defined.

(** ** The page *)

Lemma hydration_keeps_all (l l' : list note) (k : string) :
  Forall2 hydration_of l l' → k ≠ "imageUrl" →
  map (λ m : note, field m k) l' = map (λ m : note, field m k) l.
Proof.
  intros Hf Hk. induction Hf as [|n n' l l' Hh _ IH]; simpl; [done|].
  by rewrite IH, (hydration_keeps n n' k).
Qed.

Section PageFacts.
Context {W : Type} (env : environment W).

(** The state a refresh leaves when its list request resolved. *)
Lemma run_fetchNotes_resolved (st : ui) (w : W) (data : option (list note)) :
  (respond env Notes_list w).1 = Ok data →
  let o := run env fetchNotes st w in
  Forall2 hydration_of (default [] data) (notes (ui_of o)) ∧ loading (ui_of o) = false.
Proof.
  intros Hdata. pose proof (run_fetchNotes env st w) as Hrun. cbv zeta in Hrun |- *.
  rewrite Hdata in Hrun. destruct Hrun as (l' & Hl & ->).
  match type of Hl with value_of (run env _ ?s ?v) = _ =>
    destruct (run_hydrate_all_spec env (default [] data) s v) as (l'' & Hl' & Hf & _)
  end.
  cbv zeta in Hl'. rewrite Hl in Hl'. injection Hl' as <-. done.
Qed.
End PageFacts.

(** X18.  The page after a refresh whose list request resolved: the
    buttons are enabled again; an empty or missing listing shows the
    ["No notes yet."] line; any other listing shows one item per note, in
    the listing's order, keyed by the notes' identifiers and titled by
    their names, each with its delete button enabled. *)
Theorem page_after_refresh {W : Type} (env : environment W) (st : ui) (w : W)
    (data : option (list note)) :
  (respond env Notes_list w).1 = Ok data →
  let p := render (ui_of (run env fetchNotes st w)) in
  submit_disabled p = false
  ∧ refresh_disabled p = false
  ∧ submit_label p = "Create Note"
  ∧ match default [] data with
    | [] => section_of p = No_notes_yet
    | _ :: _ =>
        ∃ items : list item,
          section_of p = Items items
          ∧ map item_key items = ids (default [] data)
          ∧ map item_title items = map (λ m : note, field m "name") (default [] data)
          ∧ Forall (λ it : item, item_delete_disabled it = false) items
    end.
Proof.
  intros Hdata. destruct (run_fetchNotes_resolved env st w data Hdata) as (Hf & Hload).
  cbv zeta in Hf, Hload |- *. unfold render.
  cbn [submit_disabled refresh_disabled submit_label section_of].
  revert Hf Hload. generalize (run env fetchNotes st w). intros o Hf ->.
  split_and!; try done.
  revert Hf. generalize (default [] data) (notes (ui_of o)). intros l l' Hf.
  pose proof (hydration_keeps_all l l' "id" Hf) as Hids.
  pose proof (hydration_keeps_all l l' "name" Hf) as Hnames.
  destruct Hf as [|n n' l l' Hh Hf]; [done|].
  cbn [length Nat.eqb]. eexists. split; [done|]. rewrite !map_map.
  cbn [render_item item_key item_title item_delete_disabled]. split_and!.
  - by apply Hids.
  - by apply Hnames.
  - apply List.Forall_map. by apply Forall_forall.
Qed.

Lemma page_after_refresh_witness :
  section_of (render (ui_of (run no_data fetchNotes
                               {| notes := [plain_note]; formState := trip; file := None;
                                  loading := false |} tt)))
  = No_notes_yet.
Proof.
  destruct (page_after_refresh no_data
              {| notes := [plain_note]; formState := trip; file := None; loading := false |}
              tt None) as (_ & _ & _ & H); [reflexivity | exact H].
Defined.

(** X19.  How a record from the backend shows once hydrated: the
    ["image key:"] line appears exactly for a note with an image key; the
    image appears only when the note has an image key and its signed-URL
    request resolved with a non-empty URL, with that URL as source and
    the note's name as alternative text.  A failed request shows the
    note without image but with its key. *)
Theorem item_of_hydrated_note {W : Type} (env : environment W) (st : ui) (w : W)
    (n n' : note) (busy : bool) :
  n !! "imageUrl" = None →
  value_of (run env (withImageUrl n) st w) = Ok n' →
  item_image_key (render_item busy n') = (if has_image n then Some (field n "image") else None)
  ∧ item_img (render_item busy n')
    = (if has_image n then
         match (respond env (getUrl (field n "image")) w).1 with
         | Ok href => when (VStr href) (VStr href, field n "name")
         | Throw _ => None
         end
       else None).
Proof.
  intros Hurl. rewrite run_withImageUrl. unfold has_image, render_item, when.
  cbn [item_image_key item_img].
  assert (field n "imageUrl" = VUndefined) as Hu by (unfold field; by rewrite Hurl).
  destruct (truthy (field n "image")) eqn:Himg; cbv zeta.
  - destruct (respond env (getUrl (field n "image")) w) as [[href|e] w']; cbn [fst snd value_of];
      intros [= <-].
    + unfold field at 1 2 3 4 5 6.
      rewrite lookup_insert_eq, !lookup_insert_ne by done. fold (field n "image").
      fold (field n "name"). rewrite Himg. done.
    + by rewrite Himg, Hu.
  - intros [= <-]. by rewrite Himg, Hu.
Qed.

Lemma item_of_hydrated_note_witness :
  item_img (render_item false pictured_note) = None
  ∧ item_image_key (render_item false pictured_note) = Some (VStr (str "images/1-cat.png")).
Proof.
  destruct (item_of_hydrated_note (scripted []) initial [false] pictured_note pictured_note false)
    as (Hk & Hi); [reflexivity | reflexivity | ].
  split; [exact Hi | exact Hk].
Defined.

(** ** Hydrating again, creating again *)

(** X20.  A signed URL held from an earlier load is replaced, not kept:
    hydrating a note that already carries an [imageUrl] gives, when the
    request resolves, the same note as hydrating it without one. *)
Theorem rehydration_replaces_url {W : Type} (env : environment W) (st : ui) (w : W)
    (n : note) (old : value) (href : jsstring) :
  has_image n = true →
  (respond env (getUrl (field n "image")) w).1 = Ok href →
  value_of (run env (withImageUrl (<["imageUrl" := old]> n)) st w)
  = Ok (<["imageUrl" := VStr href]> n)
  ∧ value_of (run env (withImageUrl n) st w) = Ok (<["imageUrl" := VStr href]> n).
Proof.
  unfold has_image. intros Himg Hhref.
  assert (field (<["imageUrl" := old]> n) "image" = field n "image") as Hsame.
  { unfold field. by rewrite lookup_insert_ne. }
  rewrite !run_withImageUrl, Hsame, Himg. cbv zeta. rewrite Hhref.
  cbn [value_of]. by rewrite insert_insert_eq.
Qed.

Lemma rehydration_replaces_url_witness :
  value_of (run (scripted []) (withImageUrl (<["imageUrl" := VStr (str "https://old")]> pictured_note))
              initial [])
  = Ok (<["imageUrl" := VStr (str "https://cdn.example/images/1-cat.png")]> pictured_note).
Proof.
  destruct (rehydration_replaces_url (scripted []) initial [] pictured_note
              (VStr (str "https://old")) (str "https://cdn.example/images/1-cat.png"))
    as (H & _); [reflexivity | reflexivity | exact H].
Defined.

(** X21.  The collection is newest first: after two creates that went
    through, one after the other, the collection is the second record,
    then the first, each as hydrated, then the notes held before. *)
Theorem two_creates_newest_first {W : Type} (env : environment W) (st : ui) (w : W)
    (f1 f2 : form) (fl1 fl2 : option File) (c1 c2 : note) :
  blank (name f1) = false →
  (upload_phase env fl1 w).1.2 = true →
  (respond env (Notes_create (name f1) (description f1) (upload_phase env fl1 w).1.1)
     (upload_phase env fl1 w).2).1 = Ok c1 →
  let o1 := run env (createNote f1 fl1) st w in
  blank (name f2) = false →
  (upload_phase env fl2 (world_of o1)).1.2 = true →
  (respond env (Notes_create (name f2) (description f2)
                  (upload_phase env fl2 (world_of o1)).1.1)
     (upload_phase env fl2 (world_of o1)).2).1 = Ok c2 →
  let o2 := run env (createNote f2 fl2) (ui_of o1) (world_of o1) in
  ∃ n1 n2 : note,
    notes (ui_of o2) = n2 :: n1 :: notes st
    ∧ hydration_of c1 n1 ∧ hydration_of c2 n2.
Proof.
  intros Hb1 Hup1 Hc1 o1 Hb2 Hup2 Hc2 o2.
  destruct (run_createNote_resolved env f1 fl1 c1 st w Hb1 Hup1 Hc1) as (n1 & Hn1 & Hh1).
  destruct (run_createNote_resolved env f2 fl2 c2 (ui_of o1) (world_of o1) Hb2 Hup2 Hc2)
    as (n2 & Hn2 & Hh2).
  fold o1 in Hn1. fold o2 in Hn2. exists n1, n2. by rewrite Hn2, Hn1.
Qed.

Lemma two_creates_newest_first_witness :
  let o1 := run (scripted []) (createNote trip None) initial [] in
  let o2 := run (scripted []) (createNote padded None) (ui_of o1) (world_of o1) in
  ∃ n1 n2 : note,
    notes (ui_of o2) = [n2; n1]
    ∧ hydration_of (canned_record (str "Trip") (str "Fun")) n1
    ∧ hydration_of (canned_record (str " Trip ") (str "Fun")) n2.
Proof.
  intros o1 o2.
  apply (two_creates_newest_first (scripted []) initial [] trip padded None None
           (canned_record (str "Trip") (str "Fun"))
           (canned_record (str " Trip ") (str "Fun")));
    reflexivity.
Defined.
